(** * Outlier removal before regression: the notebook [assignment_outliers_002]

    The notebook has five code cells.  Each one loads the housing table,
    separates the last column as the regression target, splits the rows
    into a training and a test part, removes from the training part the
    rows an outlier detector labels [-1] (all cells but the first), fits a
    linear regression and prints the mean absolute error on the test part.

    - The statements of the cells are embedded one by one in a monad of
      state and exceptions over the kernel's namespace, a finite map from
      names to objects.  Every cell imports each library function it calls;
      the embedding calls these functions directly.
    - The array operations written in the cells (column slices, [!=],
      indexing by a boolean mask) are list functions; array elements are
      binary64 numbers.
    - The functions of the libraries are not part of the notebook.  The
      loader, the detectors and the regression are fields of a record the
      development is parametric in, together with the random generator.
      [train_test_split] and [mean_absolute_error], which some properties
      are about, are modelled from the specification and the documentation
      of the library. *)

From Stdlib Require Import ZArith QArith Qround List.
From Stdlib Require Import Floats.SpecFloat.
From stdpp Require Import gmap strings list sorting.

#[local] Set Warnings "-clear-no-such-hyp".
#[local] Open Scope Z_scope.
#[local] Open Scope nat_scope.

(** ** Data *)

(** Array elements are binary64 numbers. *)
Definition float : Type := spec_float.

(** A two-dimensional array of shape [(nrows, ncols)], stored by rows. *)
Record matrix : Type := Matrix { ncols : nat; rows : list (list float) }.

Definition nrows (m : matrix) : nat := length (rows m).

Definition shape (m : matrix) : nat * nat := (nrows m, ncols m).

Definition wf_matrix (m : matrix) : Prop :=
  Forall (λ r, length r = ncols m) (rows m).

(** Exceptions.  [NameError], [TypeError], [IndexError] and [ValueError] are
    the interpreter's and the array library's; [Raised] carries whatever an
    estimator or the loader raised; [ConfigError] is the configuration error
    the specification names. *)
Inductive exn : Type :=
| NameError (x : string)
| TypeError
| IndexError
| ValueError
| ConfigError
| Raised (what : string).

Definition result (A : Type) : Type := exn + A.

Abbreviation Ok := (@inr exn _).
Abbreviation Raise := (@inl exn _).

#[global] Instance result_ret : MRet result := λ A, @inr exn A.
#[global] Instance result_bind : MBind result := λ A B k r,
  match r with
  | inl e => inl e
  | inr a => k a
  end.

(** ** Array operations used in the cells *)

(** [data[:, :-1]]: every column but the last. *)
Definition cols_init (data : matrix) : matrix :=
  Matrix (ncols data - 1) (map (λ r : list float, removelast r) (rows data)).

(** [data[:, -1]]: the last column; an array without columns has none. *)
Definition col_last (data : matrix) : result (list float) :=
  match ncols data with
  | O => Raise IndexError
  | S _ =>
      match mapM (λ r : list float, last r) (rows data) with
      | Some y => Ok y
      | None => Raise IndexError
      end
  end.

(** [yhat != c], element by element. *)
Definition ne_scalar (yhat : list Z) (c : Z) : list bool :=
  map (λ v, negb (v =? c)%Z) yhat.

(** The elements of [l] at the positions where [mask] holds. *)
Fixpoint compress {A} (mask : list bool) (l : list A) : list A :=
  match mask, l with
  | b :: mask', x :: l' =>
      if b then x :: compress mask' l' else compress mask' l'
  | _, _ => []
  end.

(** [a[mask]] for a boolean [mask]: the lengths have to agree. *)
Definition bool_index {A} (l : list A) (mask : list bool) : result (list A) :=
  if decide (length mask = length l) then Ok (compress mask l)
  else Raise IndexError.

(** [X[mask, :]]. *)
Definition mask_rows (X : matrix) (mask : list bool) : result matrix :=
  rs ← bool_index (rows X) mask; Ok (Matrix (ncols X) rs).

(** [a[indices]] for a list of positions. *)
Definition take_at {A} (l : list A) (ind : list nat) : result (list A) :=
  match mapM (λ i, l !! i) ind with
  | Some l' => Ok l'
  | None => Raise IndexError
  end.

Definition take_rows (X : matrix) (ind : list nat) : result matrix :=
  rs ← take_at (rows X) ind; Ok (Matrix (ncols X) rs).

(** The positions at which [mask] holds, counted from [off]. *)
Fixpoint where_true (off : nat) (mask : list bool) : list nat :=
  match mask with
  | [] => []
  | b :: mask' =>
      if b then off :: where_true (S off) mask' else where_true (S off) mask'
  end.

(** The number of labels equal to [-1]. *)
Definition flagged (yhat : list Z) : nat := count_occ Z.eq_dec yhat (-1)%Z.

(** ** The filtering step of an outlier cell *)

(** [X_train[mask, :], y_train[mask]]: the tuple on the right-hand side is
    evaluated before either name is bound. *)
Definition apply_mask (X_train : matrix) (y_train : list float)
    (mask : list bool) : result (matrix * list float) :=
  X' ← mask_rows X_train mask;
  y' ← bool_index y_train mask;
  Ok (X', y').

(** [mask = yhat != -1] followed by
    [X_train, y_train = X_train[mask, :], y_train[mask]]. *)
Definition filter_training (X_train : matrix) (y_train : list float)
    (yhat : list Z) : result (matrix * list float) :=
  apply_mask X_train y_train (ne_scalar yhat (-1)).

(** ** binary64 arithmetic *)

Definition prec : Z := 53.
Definition emax : Z := 1024.

Definition f_add : float → float → float := SFadd prec emax.
Definition f_sub : float → float → float := SFsub prec emax.
Definition f_div : float → float → float := SFdiv prec emax.
Definition f_abs : float → float := SFabs.
Definition f_leb : float → float → bool := SFleb.

Definition f_zero : float := S754_zero false.

(** Conversion of an array length to binary64. *)
Definition f_of_nat (n : nat) : float :=
  binary_normalize prec emax (Z.of_nat n) 0 false.

(** Neither an infinity nor a NaN. *)
Definition is_finite (x : float) : bool :=
  match x with
  | S754_zero _ | S754_finite _ _ _ => true
  | S754_infinity _ | S754_nan => false
  end.

Definition is_zero (x : float) : bool :=
  match x with
  | S754_zero _ => true
  | _ => false
  end.

(** The order in which the array library adds the elements of an array is
    not fixed by its interface (blocks, pairs, accumulators that start at
    zero): a sum is described by the tree of additions it performs. *)
Inductive sum_tree : Type :=
| Term (x : float)
| Plus (l r : sum_tree).

Fixpoint eval_sum (t : sum_tree) : float :=
  match t with
  | Term x => x
  | Plus l r => f_add (eval_sum l) (eval_sum r)
  end.

Fixpoint terms (t : sum_tree) : list float :=
  match t with
  | Term x => [x]
  | Plus l r => terms l ++ terms r
  end.

(** A summation order adds every element of the array once, possibly
    together with zeros. *)
Definition sum_order_ok (order : list float → sum_tree) : Prop :=
  ∀ l, l ≠ [] →
    ∃ zs, Forall (λ z, is_zero z = true) zs ∧ terms (order l) ≡ₚ l ++ zs.

(** Adding from left to right, starting with the first element. *)
Definition left_to_right (l : list float) : sum_tree :=
  match l with
  | [] => Term f_zero
  | x :: l' => fold_left (λ t y, Plus t (Term y)) l' (Term x)
  end.

(** ** The metric *)

(** Modelled from the spec: [mean_absolute_error(y_true, y_pred)] is a
    function of the statistical library, which the notebook only calls.
    The specification defines the metric as the average absolute difference
    between predicted and true targets; after the library's documentation
    both arrays are validated first (same length, at least one sample, no
    NaN and no infinity, else [ValueError]).  The mean is the sum, in the
    order [order], divided by the number of samples. *)
Definition mean_absolute_error (order : list float → sum_tree)
    (y_true y_pred : list float) : result float :=
  if decide (length y_true = length y_pred) then
    if decide (y_true = []) then Raise ValueError
    else if forallb is_finite y_true && forallb is_finite y_pred then
      let errors := zip_with (λ p t, f_abs (f_sub p t)) y_pred y_true in
      Ok (f_div (eval_sum (order errors)) (f_of_nat (length errors)))
    else Raise ValueError
  else Raise ValueError.

(** ** The statistical library *)

(** The four detectors, as the cells construct them.  The constructors
    store their argument; the library looks at it when fitting. *)
Inductive detector : Type :=
| IsolationForest (contamination : Q)
| EllipticEnvelope (contamination : Q)
| LocalOutlierFactor
| OneClassSVM (nu : Q).

(** The expected fraction of outliers a detector was constructed with. *)
Definition outlier_fraction (d : detector) : option Q :=
  match d with
  | IsolationForest c | EllipticEnvelope c => Some c
  | LocalOutlierFactor => None
  | OneClassSVM nu => Some nu
  end.

(** A fitted linear regression. *)
Record linear_model : Type :=
  LinearModel { coef_ : list float; intercept_ : float }.

(** What the notebook uses without defining it.  [G] is the state of a
    random generator.  A library function that raises returns the name of
    its exception. *)
Record library (G : Type) : Type := Library {
  (** [read_csv(url, header=...)]: the frame, as the table of its values *)
  read_csv : string → option nat → string + matrix;
  (** the generator seeded with an integer *)
  seeded : Z → G;
  (** [rng.permutation(n)] *)
  permutation : G → nat → list nat;
  (** [detector.fit_predict(X)]; a detector constructed without a seed
      draws from the generator it is given *)
  fit_predict : detector → G → matrix → string + list Z;
  (** [LinearRegression().fit(X, y)] *)
  lr_fit : matrix → list float → string + linear_model;
  (** [model.predict(X)] *)
  lr_predict : linear_model → matrix → string + list float;
  (** the order in which an array is summed *)
  sum_order : list float → sum_tree
}.

Arguments read_csv {G} _ _ _.
Arguments seeded {G} _ _.
Arguments permutation {G} _ _ _.
Arguments fit_predict {G} _ _ _ _.
Arguments lr_fit {G} _ _ _.
Arguments lr_predict {G} _ _ _.
Arguments sum_order {G} _ _.

(** The documented behaviour the proofs rely on. *)
Record library_ok {G} (L : library G) : Prop := LibraryOk {
  permutation_ok : ∀ g n, permutation L g n ≡ₚ seq 0 n;
  sum_order_valid : sum_order_ok (sum_order L)
}.

Definition external {A} (r : string + A) : result A :=
  match r with
  | inl what => Raise (Raised what)
  | inr a => Ok a
  end.

(** ** The train/test split *)

(** An integer [random_state] seeds a generator of its own; without one the
    ambient generator [g] is used. *)
Definition check_random_state {G} (L : library G) (random_state : option Z)
    (g : G) : G :=
  match random_state with
  | Some seed => seeded L seed
  | None => g
  end.

(** [ceil(test_size * n)]; the product is taken exactly (the library rounds
    it to binary64 before rounding up). *)
Definition n_test_of (test_size : Q) (n : nat) : nat :=
  Z.to_nat (Qceiling (test_size * inject_Z (Z.of_nat n))).

Definition valid_test_size (test_size : Q) : bool :=
  match 0 ?= test_size, test_size ?= 1 with
  | Lt, Lt => true
  | _, _ => false
  end%Q.

(** The shuffled positions of the training and of the test part. *)
Definition shuffle_split {G} (L : library G) (rng : G) (n n_test : nat)
    : list nat * list nat :=
  let perm := permutation L rng n in
  let ind_test := take n_test perm in
  let ind_train := take (n - n_test) (drop n_test perm) in
  (ind_train, ind_test).

(** Modelled from the spec: [train_test_split(X, y, test_size=...,
    random_state=...)] is a function of the statistical library, which the
    notebook only calls.  The specification describes its result as a
    partition of the rows into a training and a held-out part, reproducible
    for a fixed seed; after the library's documentation the row positions
    are shuffled once, the first [n_test] of them form the test part and the
    remaining ones the training part, and the same positions are taken from
    every array.  Arrays of different lengths, a [test_size] outside (0, 1)
    and an empty training part raise [ValueError]. *)
Definition train_test_split {G} (L : library G) (X : matrix) (y : list float)
    (test_size : Q) (random_state : option Z) (g : G)
    : result (matrix * matrix * list float * list float) :=
  if decide (nrows X = length y) then
    if valid_test_size test_size then
      let n := nrows X in
      let n_test := n_test_of test_size n in
      if decide (n - n_test = 0) then Raise ValueError
      else
        let rng := check_random_state L random_state g in
        let '(ind_train, ind_test) := shuffle_split L rng n n_test in
        X_train ← take_rows X ind_train;
        X_test ← take_rows X ind_test;
        y_train ← take_at y ind_train;
        y_test ← take_at y ind_test;
        Ok (X_train, X_test, y_train, y_test)
    else Raise ValueError
  else Raise ValueError.

(** ** The kernel: namespace, printed output, library calls *)

(** The objects the cells bind to names. *)
Inductive value : Type :=
| VStr (s : string)
| VFrame (table : matrix)
| VArr2 (a : matrix)
| VArr1 (a : list float)
| VInts (a : list Z)
| VBools (a : list bool)
| VDetector (d : detector)
| VModel (fitted : option linear_model)
| VFloat (x : float).

(** What a cell prints: [print(X_train.shape, y_train.shape)] and
    [print('MAE: %.3f' % mae)]. *)
Inductive printed : Type :=
| PShapes (X_shape : nat * nat) (y_shape : nat)
| PMae (mae : float).

(** The calls into the libraries, with their arguments. *)
Inductive call : Type :=
| CReadCsv (url : string) (header : option nat)
| CSplit (X : matrix) (y : list float) (test_size : Q) (random_state : option Z)
| CFitPredict (d : detector) (X : matrix)
| CFit (X : matrix) (y : list float)
| CPredict (m : linear_model) (X : matrix)
| CMae (y_true y_pred : list float).

Record kernel : Type := Kernel {
  names : gmap string value;
  stdout : list printed;
  calls : list call
}.

(** A statement changes the kernel and either completes or raises; what was
    bound and printed before an exception stays. *)
Definition M (A : Type) : Type := kernel → result A * kernel.

#[global] Instance M_ret : MRet M := λ A a k, (Ok a, k).
#[global] Instance M_bind : MBind M := λ A B f m k,
  match m k with
  | (inl e, k') => (inl e, k')
  | (inr a, k') => f a k'
  end.

Definition lift {A} (r : result A) : M A := λ k, (r, k).

(** [x = v] *)
Definition assign (x : string) (v : value) : M unit := λ k,
  (Ok (), Kernel (<[x:=v]> (names k)) (stdout k) (calls k)).

(** Reading the name [x]. *)
Definition name (x : string) : M value := λ k,
  match names k !! x with
  | Some v => (Ok v, k)
  | None => (Raise (NameError x), k)
  end.

Definition print (p : printed) : M unit := λ k,
  (Ok (), Kernel (names k) (stdout k ++ [p]) (calls k)).

(** A call into a library: recorded, then its outcome. *)
Definition invoke {A} (c : call) (r : result A) : M A := λ k,
  (r, Kernel (names k) (stdout k) (calls k ++ [c])).

Definition as_str (v : value) : M string :=
  lift match v with VStr s => Ok s | _ => Raise TypeError end.
Definition as_frame (v : value) : M matrix :=
  lift match v with VFrame t => Ok t | _ => Raise TypeError end.
Definition as_arr2 (v : value) : M matrix :=
  lift match v with VArr2 a => Ok a | _ => Raise TypeError end.
Definition as_arr1 (v : value) : M (list float) :=
  lift match v with VArr1 a => Ok a | _ => Raise TypeError end.
Definition as_ints (v : value) : M (list Z) :=
  lift match v with VInts a => Ok a | _ => Raise TypeError end.
Definition as_bools (v : value) : M (list bool) :=
  lift match v with VBools a => Ok a | _ => Raise TypeError end.
Definition as_detector (v : value) : M detector :=
  lift match v with VDetector d => Ok d | _ => Raise TypeError end.
Definition as_model (v : value) : M (option linear_model) :=
  lift match v with VModel m => Ok m | _ => Raise TypeError end.
Definition as_float (v : value) : M float :=
  lift match v with VFloat x => Ok x | _ => Raise TypeError end.

Notation "x ::= v" := (assign x v) (at level 60, only parsing).

(** ** The cells *)

Definition housing_url : string :=
  "https://raw.githubusercontent.com/jbrownlee/Datasets/master/housing.csv".

Section Cells.
Context {G : Type} (L : library G).

(** The generator the library draws from when it is given no seed, in the
    state it has when the cell starts. *)
Variable g : G.

(** [url = ...] to [X, y = data[:, :-1], data[:, -1]]. *)
Definition load_dataset : M unit :=
  "url" ::= VStr housing_url;;
  url ← name "url" ≫= as_str;
  df ← invoke (CReadCsv url None) (external (read_csv L url None));
  "df" ::= VFrame df;;
  values ← name "df" ≫= as_frame;
  "data" ::= VArr2 values;;
  data ← name "data" ≫= as_arr2;
  let X := cols_init data in
  data ← name "data" ≫= as_arr2;
  y ← lift (col_last data);
  "X" ::= VArr2 X;;
  "y" ::= VArr1 y.

(** [X_train, X_test, y_train, y_test =
     train_test_split(X, y, test_size=0.33, random_state=1)] *)
Definition split_dataset : M unit :=
  X ← name "X" ≫= as_arr2;
  y ← name "y" ≫= as_arr1;
  '(X_train, X_test, y_train, y_test) ←
    invoke (CSplit X y (33 # 100) (Some 1%Z))
           (train_test_split L X y (33 # 100) (Some 1%Z) g);
  "X_train" ::= VArr2 X_train;;
  "X_test" ::= VArr2 X_test;;
  "y_train" ::= VArr1 y_train;;
  "y_test" ::= VArr1 y_test.

(** [print(X_train.shape, y_train.shape)] *)
Definition print_shapes : M unit :=
  X_train ← name "X_train" ≫= as_arr2;
  y_train ← name "y_train" ≫= as_arr1;
  print (PShapes (shape X_train) (length y_train)).

(** [det = Detector(...)] to
    [X_train, y_train = X_train[mask, :], y_train[mask]], where the
    detector is bound to the name [det]. *)
Definition remove_outliers (det : string) (d : detector) : M unit :=
  det ::= VDetector d;;
  fitted ← name det ≫= as_detector;
  X_train ← name "X_train" ≫= as_arr2;
  yhat ← invoke (CFitPredict fitted X_train)
                (external (fit_predict L fitted g X_train));
  "yhat" ::= VInts yhat;;
  yhat ← name "yhat" ≫= as_ints;
  "mask" ::= VBools (ne_scalar yhat (-1));;
  X_train ← name "X_train" ≫= as_arr2;
  mask ← name "mask" ≫= as_bools;
  X_kept ← lift (mask_rows X_train mask);
  y_train ← name "y_train" ≫= as_arr1;
  mask ← name "mask" ≫= as_bools;
  y_kept ← lift (bool_index y_train mask);
  "X_train" ::= VArr2 X_kept;;
  "y_train" ::= VArr1 y_kept.

(** [model = LinearRegression()] to [print('MAE: %.3f' % mae)]. *)
Definition fit_and_evaluate : M unit :=
  "model" ::= VModel None;;
  _ ← name "model" ≫= as_model;
  X_train ← name "X_train" ≫= as_arr2;
  y_train ← name "y_train" ≫= as_arr1;
  m ← invoke (CFit X_train y_train) (external (lr_fit L X_train y_train));
  "model" ::= VModel (Some m);;
  model ← name "model" ≫= as_model;
  X_test ← name "X_test" ≫= as_arr2;
  yhat ← match model with
         | Some m => invoke (CPredict m X_test)
                            (external (lr_predict L m X_test))
         | None => lift (Raise (Raised "NotFittedError"))
         end;
  "yhat" ::= VArr1 yhat;;
  y_test ← name "y_test" ≫= as_arr1;
  yhat ← name "yhat" ≫= as_arr1;
  mae ← invoke (CMae y_test yhat)
               (mean_absolute_error (sum_order L) y_test yhat);
  "mae" ::= VFloat mae;;
  mae ← name "mae" ≫= as_float;
  print (PMae mae).

(** The first code cell: the model on the raw training part. *)
Definition baseline_cell : M unit :=
  load_dataset;;
  split_dataset;;
  fit_and_evaluate.

(** The cells that remove outliers first. *)
Definition outlier_cell (det : string) (d : detector) : M unit :=
  load_dataset;;
  split_dataset;;
  print_shapes;;
  remove_outliers det d;;
  print_shapes;;
  fit_and_evaluate.

Definition isolation_forest_cell : M unit :=
  outlier_cell "iso" (IsolationForest (1 # 10)).

Definition elliptic_envelope_cell : M unit :=
  outlier_cell "ee" (EllipticEnvelope (1 # 100)).

Definition local_outlier_factor_cell : M unit :=
  outlier_cell "lof" LocalOutlierFactor.

Definition one_class_svm_cell : M unit :=
  outlier_cell "ee" (OneClassSVM (1 # 100)).
End Cells.

(** A kernel that has run nothing. *)
Definition fresh : kernel := Kernel ∅ [] [].

(** ** Notions used in the statements *)

(** Running one cell: its output area and the record of its calls start
    empty. *)
Definition run_cell (c : M unit) (ns : gmap string value)
    : result unit * kernel :=
  c (Kernel ns [] []).

(** Zero of either sign, a positive number or plus infinity. *)
Definition nonneg (x : float) : Prop :=
  match x with
  | S754_nan => False
  | S754_zero _ => True
  | S754_infinity s | S754_finite s _ _ => s = false
  end.

(** [self_contained R D p]: started in a namespace in which the names [R]
    have been bound by earlier statements of the same cell (the bindings
    [W]), the statements [p] behave the same whatever else the namespace
    holds ([ns]), they only add to these bindings, and if they complete the
    names [D] are bound as well. *)
Definition self_contained {A} (R D : gset string) (p : M A) : Prop :=
  ∀ (W : gmap string value) out log,
    R ⊆ dom W →
    ∃ r (W' : gmap string value) out' log',
      dom W ⊆ dom W' ∧
      (∀ a, r = Ok a → D ⊆ dom W') ∧
      ∀ ns, p (Kernel (W ∪ ns) out log) = (r, Kernel (W' ∪ ns) out' log').

(** [binds_only S p]: the statements [p] change no name outside [S],
    whether they complete or raise. *)
Definition binds_only {A} (S : gset string) (p : M A) : Prop :=
  ∀ k x, x ∉ S → names (p k).2 !! x = names k !! x.


(** The five code cells of the notebook, in order. *)
Definition notebook_cells {G} (L : library G) (g : G) : list (M unit) :=
  [ baseline_cell L g; isolation_forest_cell L g; elliptic_envelope_cell L g;
    local_outlier_factor_cell L g; one_class_svm_cell L g ].

(** The namespace left by running the cells [cs] one after the other,
    whether they completed or raised. *)
Definition run_cells (cs : list (M unit)) (ns : gmap string value)
    : gmap string value :=
  foldl (λ ns c, names (run_cell c ns).2) ns cs.

Definition is_split (c : call) : bool :=
  match c with
  | CSplit _ _ _ _ => true
  | _ => false
  end.

(** The number of calls of the split in a record of calls. *)
Definition split_count (log : list call) : nat :=
  length (List.filter is_split log).

(** ** A small instance, for the examples *)

(** Small integers as binary64 numbers. *)
Definition fl (z : Z) : float := binary_normalize prec emax z 0 false.

(** Four rows of two features and a target. *)
Definition small_table : matrix :=
  Matrix 3 [ [fl 1; fl 2; fl 10]; [fl 3; fl 4; fl 20];
             [fl 5; fl 6; fl 30]; [fl 7; fl 8; fl 40] ].

(** A library with two generator states: the seeded generator reverses the
    positions, the other one leaves them in place.  Its detectors label the
    first row [-1] whatever their parameter, its regression predicts the
    first training target. *)
Definition small_library : library bool :=
  Library bool
    (λ _ _, inr small_table)
    (λ _, true)
    (λ rng n, if rng then rev (seq 0 n) else seq 0 n)
    (λ _ _ X, inr (map (λ i, if (i =? 0)%nat then (-1)%Z else 1%Z)
                       (seq 0 (nrows X))))
    (λ X y, inr (LinearModel (replicate (ncols X) f_zero) (hd f_zero y)))
    (λ m X, inr (map (λ _, intercept_ m) (rows X)))
    left_to_right.

(** The features and the targets of [small_table]. *)
Definition small_X : matrix := cols_init small_table.

Definition small_y : list float := [fl 10; fl 20; fl 30; fl 40].

(** A namespace in which the training part is bound, and an unrelated name
    left by an earlier cell. *)
Definition small_names : gmap string value :=
  <["X_train":=VArr2 small_X]> (<["y_train":=VArr1 small_y]>
    (<["mae":=VStr "stale"]> ∅)).

(** ** The cells in closed form

    What the statements from [model = LinearRegression()] on do to a kernel
    in which the training and the test part are bound to the given arrays:
    every outcome with the namespace, the output and the calls it leaves. *)
Definition evaluate_closed {G} (L : library G) (ns : gmap string value)
    (out : list printed) (log : list call) (X_train : matrix)
    (y_train : list float) (X_test : matrix) (y_test : list float)
    : result unit * kernel :=
  let ns0 := <["model":=VModel None]> ns in
  let log1 := log ++ [CFit X_train y_train] in
  match lr_fit L X_train y_train with
  | inl what => (Raise (Raised what), Kernel ns0 out log1)
  | inr m =>
      let ns1 := <["model":=VModel (Some m)]> ns0 in
      let log2 := log1 ++ [CPredict m X_test] in
      match lr_predict L m X_test with
      | inl what => (Raise (Raised what), Kernel ns1 out log2)
      | inr pred =>
          let ns2 := <["yhat":=VArr1 pred]> ns1 in
          let log3 := log2 ++ [CMae y_test pred] in
          match mean_absolute_error (sum_order L) y_test pred with
          | inl e => (Raise e, Kernel ns2 out log3)
          | inr mae =>
              (Ok (), Kernel (<["mae":=VFloat mae]> ns2) (out ++ [PMae mae]) log3)
          end
      end
  end.

(** The namespace after the loading statements. *)
Definition loaded_names (ns : gmap string value) (data : matrix)
    : gmap string value :=
  <["data":=VArr2 data]> (<["df":=VFrame data]>
    (<["url":=VStr housing_url]> ns)).

(** The namespace after the split. *)
Definition split_names (ns : gmap string value) (data : matrix)
    (y : list float) (X_train X_test : matrix) (y_train y_test : list float)
    : gmap string value :=
  <["y_test":=VArr1 y_test]> (<["y_train":=VArr1 y_train]>
    (<["X_test":=VArr2 X_test]> (<["X_train":=VArr2 X_train]>
    (<["y":=VArr1 y]> (<["X":=VArr2 (cols_init data)]>
    (loaded_names ns data)))))).

(** The first cell, run in the namespace [ns]. *)
Definition baseline_closed {G} (L : library G) (g : G)
    (ns : gmap string value) : result unit * kernel :=
  let log1 := [CReadCsv housing_url None] in
  match read_csv L housing_url None with
  | inl what =>
      (Raise (Raised what), Kernel (<["url":=VStr housing_url]> ns) [] log1)
  | inr data =>
      match col_last data with
      | inl e => (Raise e, Kernel (loaded_names ns data) [] log1)
      | inr y =>
          let X := cols_init data in
          let log2 := log1 ++ [CSplit X y (33 # 100) (Some 1%Z)] in
          match train_test_split L X y (33 # 100) (Some 1%Z) g with
          | inl e =>
              (Raise e,
               Kernel (<["y":=VArr1 y]> (<["X":=VArr2 X]>
                        (loaded_names ns data))) [] log2)
          | inr (X_train, X_test, y_train, y_test) =>
              evaluate_closed L
                (split_names ns data y X_train X_test y_train y_test)
                [] log2 X_train y_train X_test y_test
          end
      end
  end.

(** An outlier cell, run in the namespace [ns]. *)
Definition outlier_closed {G} (L : library G) (g : G) (det : string)
    (d : detector) (ns : gmap string value) : result unit * kernel :=
  let log1 := [CReadCsv housing_url None] in
  match read_csv L housing_url None with
  | inl what =>
      (Raise (Raised what), Kernel (<["url":=VStr housing_url]> ns) [] log1)
  | inr data =>
      match col_last data with
      | inl e => (Raise e, Kernel (loaded_names ns data) [] log1)
      | inr y =>
          let X := cols_init data in
          let log2 := log1 ++ [CSplit X y (33 # 100) (Some 1%Z)] in
          match train_test_split L X y (33 # 100) (Some 1%Z) g with
          | inl e =>
              (Raise e,
               Kernel (<["y":=VArr1 y]> (<["X":=VArr2 X]>
                        (loaded_names ns data))) [] log2)
          | inr (X_train, X_test, y_train, y_test) =>
              let ns4 := split_names ns data y X_train X_test y_train y_test in
              let out1 := [PShapes (shape X_train) (length y_train)] in
              let log3 := log2 ++ [CFitPredict d X_train] in
              match fit_predict L d g X_train with
              | inl what =>
                  (Raise (Raised what),
                   Kernel (<[det:=VDetector d]> ns4) out1 log3)
              | inr yhat =>
                  let ns5 := <["mask":=VBools (ne_scalar yhat (-1))]>
                               (<["yhat":=VInts yhat]>
                               (<[det:=VDetector d]> ns4)) in
                  match filter_training X_train y_train yhat with
                  | inl e => (Raise e, Kernel ns5 out1 log3)
                  | inr (X_kept, y_kept) =>
                      evaluate_closed L
                        (<["y_train":=VArr1 y_kept]>
                           (<["X_train":=VArr2 X_kept]> ns5))
                        (out1 ++ [PShapes (shape X_kept) (length y_kept)])
                        log3 X_kept y_kept X_test y_test
                  end
              end
          end
      end
  end.

(** ** Notions used in the further properties *)

(** The kind of a library call. *)
Inductive call_kind : Type :=
| KReadCsv | KSplit | KFitPredict | KFit | KPredict | KMae.

Definition kind_of (c : call) : call_kind :=
  match c with
  | CReadCsv _ _ => KReadCsv
  | CSplit _ _ _ _ => KSplit
  | CFitPredict _ _ => KFitPredict
  | CFit _ _ => KFit
  | CPredict _ _ => KPredict
  | CMae _ _ => KMae
  end.

(** The calls of a completed first cell and of a completed outlier cell. *)
Definition baseline_order : list call_kind :=
  [KReadCsv; KSplit; KFit; KPredict; KMae].

Definition outlier_order : list call_kind :=
  [KReadCsv; KSplit; KFitPredict; KFit; KPredict; KMae].


Definition is_shapes (p : printed) : bool :=
  match p with
  | PShapes _ _ => true
  | PMae _ => false
  end.

(** The names an outlier cell binds, its detector being bound to [det]. *)
Definition cell_names (det : string) : gset string :=
  {[ "url"; "df"; "data"; "X"; "y"; "X_train"; "X_test"; "y_train";
     "y_test"; det; "yhat"; "mask"; "model"; "mae" ]}.

(** A library with another loader, and with other detectors. *)
Definition with_loader {G} (L : library G)
    (load : string → option nat → string + matrix) : library G :=
  Library G load (seeded L) (permutation L) (fit_predict L) (lr_fit L)
    (lr_predict L) (sum_order L).


(** The small library when the table cannot be fetched, when the table has
    no columns, when the detectors raise and when they flag nothing. *)
Definition offline_library : library bool :=
  with_loader small_library (λ _ _, inl "HTTPError").

Definition no_columns_library : library bool :=
  with_loader small_library (λ _ _, inr (Matrix 0 [[]; []])).



(** * Properties *)

(** ** Boolean-mask filtering *)

Section Compress.
Context {A : Type}.
Implicit Types (mask : list bool) (l : list A) (off : nat).

Lemma where_true_bounds off mask :
  Forall (λ j, off ≤ j < off + length mask) (where_true off mask).
Proof.
  revert off. induction mask as [|b mask IH]; intros off; simpl; [constructor|].
  assert (Forall (λ j, off ≤ j < off + S (length mask))
            (where_true (S off) mask)) as Htl.
  { eapply Forall_impl; [apply IH|]. simpl. lia. }
  destruct b; [constructor; [lia|]|]; exact Htl.
Qed.

Lemma where_true_sorted off mask : StronglySorted lt (where_true off mask).
Proof.
  revert off. induction mask as [|b mask IH]; intros off; simpl; [constructor|].
  destruct b; [|apply IH].
  constructor; [apply IH|].
  eapply Forall_impl; [apply where_true_bounds|]. simpl. lia.
Qed.

Lemma where_true_spec off mask j :
  j ∈ where_true off mask ↔ off ≤ j ∧ mask !! (j - off) = Some true.
Proof.
  revert off. induction mask as [|b mask IH]; intros off; simpl.
  { split; [by intros ?%elem_of_nil|by intros [_ ?]]. }
  assert (j ∈ where_true (S off) mask ↔
          S off ≤ j ∧ (b :: mask) !! (j - off) = Some true) as Htl.
  { rewrite IH. split; intros [Hle Hj]; (split; [done|]).
    - by replace (j - off) with (S (j - S off)) by lia.
    - by replace (j - off) with (S (j - S off)) in Hj by lia. }
  destruct b.
  - rewrite elem_of_cons, Htl. split.
    + intros [->|[Hle Hj]]; [|split; [lia|done]].
      split; [lia|]. by replace (off - off) with 0 by lia.
    + intros [Hle Hj]. destruct (decide (j = off)) as [->|Hne]; [by left|].
      right. split; [lia|done].
  - rewrite Htl. split; intros [Hle Hj]; (split; [lia|done]) || idtac.
    destruct (decide (j = off)) as [->|Hne]; [|split; [lia|done]].
    replace (off - off) with 0 in Hj by lia. done.
Qed.

Lemma length_where_true off mask :
  length (where_true off mask) = count_occ bool_dec mask true.
Proof.
  revert off. induction mask as [|[] mask IH]; intros off; simpl; auto.
Qed.

Lemma length_compress mask l :
  length mask = length l →
  length (compress mask l) = count_occ bool_dec mask true.
Proof.
  revert l. induction mask as [|b mask IH]; intros [|x l] Hlen;
    simplify_eq/=; [done|].
  destruct b; simpl; rewrite (IH l); auto.
Qed.

(** Entry [k] of the filtered array is the entry of the input at the
    [k]-th position where the mask holds. *)
Lemma compress_lookup off mask l k j :
  length mask = length l →
  where_true off mask !! k = Some j →
  compress mask l !! k = l !! (j - off).
Proof.
  revert off l k. induction mask as [|b mask IH]; intros off [|x l] k Hlen Hk;
    simplify_eq/=.
  assert (∀ k', where_true (S off) mask !! k' = Some j →
                compress mask l !! k' = (x :: l) !! (j - off)) as Htl.
  { intros k' Hk'. rewrite (IH (S off) l k') by done.
    assert (S off ≤ j).
    { pose proof (where_true_bounds (S off) mask) as HF.
      rewrite Forall_forall in HF. apply HF.
      eapply list_elem_of_lookup_2; eauto. }
    by replace (j - off) with (S (j - S off)) by lia. }
  destruct b; [|by apply Htl].
  destruct k as [|k]; simplify_eq/=; [|by apply Htl].
  by replace (j - j) with 0 by lia.
Qed.

Lemma count_true_ne_scalar (yhat : list Z) :
  count_occ bool_dec (ne_scalar yhat (-1)) true + flagged yhat
  = length yhat.
Proof.
  unfold flagged, ne_scalar. induction yhat as [|v yhat IH]; simpl; [done|].
  destruct (Z.eq_dec v (-1)%Z) as [->|Hne]; simpl; [lia|].
  destruct (Z.eqb_spec v (-1)%Z); [done|]. simpl. lia.
Qed.
End Compress.

(** ** Signs in binary64 arithmetic *)

Lemma f_leb_zero x : f_leb f_zero x = true ↔ nonneg x.
Proof.
  destruct x as [s|[]| |[] m e]; simpl; unfold f_leb, SFleb; simpl;
    try tauto; split; try done.
Qed.

Section Rounding.
Variables p em : Z.

Lemma shr_1_nonneg mrs : (0 ≤ shr_m mrs → 0 ≤ shr_m (shr_1 mrs))%Z.
Proof. destruct mrs as [[|[q|q|]|q] r s]; simpl; lia. Qed.

Lemma iter_pos_shr_1_nonneg n mrs :
  (0 ≤ shr_m mrs → 0 ≤ shr_m (SpecFloat.iter_pos shr_1 n mrs))%Z.
Proof.
  revert mrs. induction n as [n IH|n IH|]; intros mrs Hm; simpl.
  - apply IH, IH, shr_1_nonneg, Hm.
  - apply IH, IH, Hm.
  - apply shr_1_nonneg, Hm.
Qed.

Lemma shr_fexp_nonneg m e l :
  (0 ≤ m → 0 ≤ shr_m (fst (shr_fexp p em m e l)))%Z.
Proof.
  intros Hm. unfold shr_fexp, shr.
  assert (shr_m (shr_record_of_loc m l) = m) as Hrec
    by (by destruct l as [|[]]).
  destruct (fexp p em (Zdigits2 m + e) - e)%Z; simpl; rewrite ?Hrec; try done.
  apply iter_pos_shr_1_nonneg. by rewrite Hrec.
Qed.

Lemma round_nearest_even_nonneg m l :
  (0 ≤ m → 0 ≤ round_nearest_even m l)%Z.
Proof.
  intros Hm. destruct l as [|[]]; simpl; try lia.
  destruct (Z.even m); lia.
Qed.

(** Rounding a magnitude that is not negative gives a zero, a number or
    an infinity of the requested sign, never a NaN. *)
Lemma binary_round_aux_sign sx mx ex lx :
  (0 ≤ mx)%Z →
  match binary_round_aux p em sx mx ex lx with
  | S754_nan => False
  | S754_zero s | S754_infinity s | S754_finite s _ _ => s = sx
  end.
Proof.
  intros Hm. unfold binary_round_aux.
  pose proof (shr_fexp_nonneg mx ex lx Hm) as H1.
  destruct (shr_fexp p em mx ex lx) as [mrs' e']. simpl in H1.
  pose proof (shr_fexp_nonneg _ e' loc_Exact
                (round_nearest_even_nonneg _ (loc_of_shr_record mrs') H1))
    as H2.
  destruct (shr_fexp p em _ e' loc_Exact) as [mrs'' e'']. simpl in H2.
  destruct (shr_m mrs'') as [|q|q]; [done| |lia].
  by destruct (e'' <=? em - p)%Z.
Qed.

Lemma binary_round_sign sx mx ex :
  match binary_round p em sx mx ex with
  | S754_nan => False
  | S754_zero s | S754_infinity s | S754_finite s _ _ => s = sx
  end.
Proof.
  unfold binary_round.
  destruct (shl_align mx ex _) as [mz ez].
  by apply binary_round_aux_sign.
Qed.

Lemma SFadd_nonneg x y :
  nonneg x → nonneg y → nonneg (SFadd p em x y).
Proof.
  destruct x as [sx|sx| |sx mx ex], y as [sy|sy| |sy my ey]; simpl;
    intros Hx Hy; subst; try done.
  { by destruct sx, sy. }
  simpl.
  pose proof (binary_round_sign false
    (fst (shl_align mx ex (Z.min ex ey)) + fst (shl_align my ey (Z.min ex ey)))
    (Z.min ex ey)) as Hs.
  destruct (binary_round _ _ _ _ _); simpl; done.
Qed.

Lemma SFdiv_nonneg x my ey :
  nonneg x → nonneg (SFdiv p em x (S754_finite false my ey)).
Proof.
  destruct x as [sx|sx| |sx mx ex]; simpl; intros Hx; subst; try done.
  simpl. unfold SFdiv_core_binary.
  set (m' := match (_ - _ - _)%Z with Z0 => _ | Zpos _ => _ | Zneg _ => _ end).
  assert (0 ≤ m')%Z as Hm'.
  { subst m'. destruct (_ - _ - _)%Z; try lia.
    apply Z.shiftl_nonneg. lia. }
  pose proof (Z_div_mod m' (Z.pos my) ltac:(lia)) as Hdiv.
  destruct (Z.div_eucl m' (Z.pos my)) as [q r].
  assert (0 ≤ q)%Z as Hq by nia.
  pose proof (binary_round_aux_sign false q
    (Z.min (fexp p em (Zdigits2 (Z.pos mx) + ex - (Zdigits2 (Z.pos my) + ey)))
           (ex - ey)) (new_location (Z.pos my) r) Hq) as Hs.
  destruct (binary_round_aux _ _ _ _ _ _); simpl; done.
Qed.
End Rounding.

Lemma eval_sum_nonneg t :
  Forall nonneg (terms t) → nonneg (eval_sum t).
Proof.
  induction t as [x|l IHl r IHr]; simpl.
  - intros Hx. by apply Forall_inv in Hx.
  - intros [Hl Hr]%Forall_app. apply SFadd_nonneg; auto.
Qed.

Lemma f_abs_nonneg x : x ≠ S754_nan → nonneg (f_abs x).
Proof. by destruct x. Qed.

Lemma f_sub_finite x y :
  is_finite x = true → is_finite y = true → f_sub x y ≠ S754_nan.
Proof.
  destruct x as [sx|sx| |sx mx ex], y as [sy|sy| |sy my ey]; simpl; try done.
  - intros _ _. by destruct sx, sy.
  - intros _ _. unfold f_sub, SFsub, binary_normalize.
    set (m := (_ - _)%Z). destruct m as [|q|q]; [done| |].
    + pose proof (binary_round_sign prec emax false q (Z.min ex ey)).
      by destruct (binary_round _ _ _ _ _).
    + pose proof (binary_round_sign prec emax true q (Z.min ex ey)).
      by destruct (binary_round _ _ _ _ _).
Qed.

(** ** Array lengths as binary64 numbers *)

Lemma digits2_pos_size q : digits2_pos q = Pos.size q.
Proof. induction q as [q IH|q IH|]; simpl; by rewrite ?IH. Qed.

Lemma Zdigits2_bounds q :
  (2 ^ (Zdigits2 (Z.pos q) - 1) ≤ Z.pos q < 2 ^ Zdigits2 (Z.pos q))%Z.
Proof.
  simpl. rewrite digits2_pos_size.
  pose proof (Pos.size_gt q) as Hgt. pose proof (Pos.size_le q) as Hle.
  assert (Z.pos (2 ^ Pos.size q) = 2 ^ Z.pos (Pos.size q))%Z as Hpow
    by (by rewrite Pos2Z.inj_pow).
  split; [|lia].
  assert (2 ^ Z.pos (Pos.size q) = 2 * 2 ^ (Z.pos (Pos.size q) - 1))%Z as Hs.
  { rewrite <-Z.pow_succ_r by lia. f_equal. lia. }
  lia.
Qed.

Lemma Zdigits2_le q b :
  (0 ≤ b)%Z → (Z.pos q < 2 ^ b)%Z → (Zdigits2 (Z.pos q) ≤ b)%Z.
Proof.
  intros Hb Hq. destruct (Zdigits2_bounds q) as [Hlo _].
  destruct (Z.le_gt_cases (Zdigits2 (Z.pos q)) b) as [|Hgt]; [done|].
  assert (2 ^ b ≤ 2 ^ (Zdigits2 (Z.pos q) - 1))%Z
    by (apply Z.pow_le_mono_r; lia).
  lia.
Qed.

Lemma shr_1_div2 mrs :
  (0 ≤ shr_m mrs)%Z → shr_m (shr_1 mrs) = (shr_m mrs / 2)%Z.
Proof.
  destruct mrs as [[|[q|q|]|q] r s]; simpl; intros Hm; try done; try lia.
  - rewrite Pos2Z.inj_xI. apply Z.div_unique with 1%Z; lia.
  - rewrite Pos2Z.inj_xO. apply Z.div_unique with 0%Z; lia.
Qed.

Lemma pow2_xO j : (2 ^ Z.pos j~0 = 2 ^ Z.pos j * 2 ^ Z.pos j)%Z.
Proof.
  replace (Z.pos j~0) with (Z.pos j + Z.pos j)%Z by lia.
  apply Z.pow_add_r; lia.
Qed.

Lemma pow2_xI j : (2 ^ Z.pos j~1 = 2 * (2 ^ Z.pos j * 2 ^ Z.pos j))%Z.
Proof.
  replace (Z.pos j~1) with (1 + (Z.pos j + Z.pos j))%Z by lia.
  rewrite !Z.pow_add_r by lia. done.
Qed.

Lemma iter_pos_shr_1_div j mrs :
  (0 ≤ shr_m mrs)%Z →
  shr_m (SpecFloat.iter_pos shr_1 j mrs) = (shr_m mrs / 2 ^ Z.pos j)%Z.
Proof.
  revert mrs. induction j as [j IH|j IH|]; intros mrs Hm; simpl SpecFloat.iter_pos.
  - pose proof (shr_1_nonneg mrs Hm) as H1.
    pose proof (iter_pos_shr_1_nonneg j _ H1) as H2.
    rewrite (IH _ H2), (IH _ H1), shr_1_div2, pow2_xI by done.
    assert (0 < 2 ^ Z.pos j)%Z by (apply Z.pow_pos_nonneg; lia).
    rewrite !Z.div_div by lia. done.
  - pose proof (iter_pos_shr_1_nonneg j _ Hm) as H2.
    rewrite (IH _ H2), (IH _ Hm), pow2_xO.
    assert (0 < 2 ^ Z.pos j)%Z by (apply Z.pow_pos_nonneg; lia).
    rewrite !Z.div_div by lia. done.
  - rewrite shr_1_div2 by done. done.
Qed.

(** Shifting a positive magnitude into place, away from the subnormal
    range, keeps it positive. *)
Lemma shr_fexp_pos q e l :
  (-1021 ≤ Zdigits2 (Z.pos q) + e)%Z →
  let '(mrs, e') := shr_fexp prec emax (Z.pos q) e l in
  (0 < shr_m mrs ≤ Z.pos q)%Z ∧
  e' = (e + Z.max (Zdigits2 (Z.pos q) - 53) 0)%Z.
Proof.
  intros Hd. unfold shr_fexp.
  assert (fexp prec emax (Zdigits2 (Z.pos q) + e) - e
          = Zdigits2 (Z.pos q) - 53)%Z as ->
    by (unfold fexp, SpecFloat.emin, prec, emax; lia).
  assert (shr_m (shr_record_of_loc (Z.pos q) l) = Z.pos q) as Hrec
    by (by destruct l as [|[]]).
  pose proof (Zdigits2_bounds q) as [Hlo _].
  unfold shr. destruct (Zdigits2 (Z.pos q) - 53)%Z as [|j|j] eqn:Hj.
  - rewrite Hrec. lia.
  - rewrite iter_pos_shr_1_div, Hrec by (rewrite Hrec; lia).
    split; [|lia]. split.
    + apply Z.div_str_pos. split; [lia|].
      etrans; [|exact Hlo]. apply Z.pow_le_mono_r; lia.
    + apply Z.div_le_upper_bound; [lia|].
      assert (1 ≤ 2 ^ Z.pos j)%Z by lia. nia.
  - rewrite Hrec. lia.
Qed.

Lemma round_nearest_even_bounds m l :
  (m ≤ round_nearest_even m l ≤ m + 1)%Z.
Proof. destruct l as [|[]]; simpl; try lia. destruct (Z.even m); lia. Qed.

Lemma digits2_pos_iter_xO q k :
  digits2_pos (Pos.iter xO q k) = (digits2_pos q + k)%positive.
Proof.
  induction k as [|k IH] using Pos.peano_ind; simpl.
  - lia.
  - rewrite Pos.iter_succ. simpl. rewrite IH. lia.
Qed.

(** A positive count below [2^63] is a positive binary64 number. *)
Lemma binary_round_count q :
  (Z.pos q < 2 ^ 63)%Z →
  ∃ m e, binary_round prec emax false q 0 = S754_finite false m e.
Proof.
  intros Hq. unfold binary_round.
  pose proof (Zdigits2_le q 63 ltac:(lia) Hq) as Hd. simpl in Hd.
  assert (fexp prec emax (Z.pos (digits2_pos q) + 0)
          = Z.pos (digits2_pos q) - 53)%Z as ->
    by (unfold fexp, SpecFloat.emin, prec, emax; lia).
  assert (∃ mz ez, shl_align q 0 (Z.pos (digits2_pos q) - 53) = (mz, ez) ∧
            (-52 ≤ ez ≤ 0)%Z ∧ (Zdigits2 (Z.pos mz) ≤ 63)%Z) as
    (mz & ez & -> & Hez & Hdz).
  { unfold shl_align.
    destruct (Z.pos (digits2_pos q) - 53 - 0)%Z as [|j|j] eqn:Hj.
    - exists q, 0%Z. simpl. split; [done|lia].
    - exists q, 0%Z. simpl. split; [done|lia].
    - eexists _, _. split; [done|]. split; [lia|].
      simpl. rewrite digits2_pos_iter_xO. lia. }
  unfold binary_round_aux.
  pose proof (shr_fexp_pos mz ez loc_Exact) as H1.
  destruct (shr_fexp prec emax (Z.pos mz) ez loc_Exact) as [mrs' e'].
  destruct H1 as [Hm' ->]; [simpl; lia|].
  set (r := round_nearest_even (shr_m mrs') (loc_of_shr_record mrs')).
  pose proof (round_nearest_even_bounds (shr_m mrs') (loc_of_shr_record mrs'))
    as Hr. fold r in Hr.
  destruct r as [|r|r]; [lia| |lia].
  assert (Zdigits2 (Z.pos r) ≤ 64)%Z as Hdr.
  { apply Zdigits2_le; [lia|].
    destruct (Zdigits2_bounds mz) as [_ Hhi].
    assert (2 ^ Zdigits2 (Z.pos mz) ≤ 2 ^ 63)%Z
      by (apply Z.pow_le_mono_r; lia).
    change (2 ^ 64)%Z with (2 * 2 ^ 63)%Z. lia. }
  pose proof (shr_fexp_pos r (ez + Z.max (Zdigits2 (Z.pos mz) - 53) 0) loc_Exact)
    as H2.
  destruct (shr_fexp prec emax (Z.pos r) _ loc_Exact) as [mrs'' e''].
  destruct H2 as [Hm'' ->]; [simpl in *; lia|].
  destruct (shr_m mrs'') as [|m|m]; [lia| |lia].
  eexists _, _.
  destruct (Z.leb_spec
    (ez + Z.max (Zdigits2 (Z.pos mz) - 53) 0 + Z.max (Zdigits2 (Z.pos r) - 53) 0)
    (emax - prec)) as [|Hgt]; [done|].
  unfold emax, prec in Hgt. simpl in *. lia.
Qed.

Lemma f_of_nat_finite n :
  0 < n → (Z.of_nat n < 2 ^ 63)%Z →
  ∃ m e, f_of_nat n = S754_finite false m e.
Proof.
  intros Hn Hlt. unfold f_of_nat, binary_normalize.
  destruct (Z.of_nat n) as [|q|q] eqn:Hq; [lia| |lia].
  by apply binary_round_count.
Qed.

(** ** The filtering step *)

Lemma filter_training_ok X_train y_train yhat :
  nrows X_train = length y_train →
  length yhat = nrows X_train →
  filter_training X_train y_train yhat
  = Ok (Matrix (ncols X_train)
          (compress (ne_scalar yhat (-1)) (rows X_train)),
        compress (ne_scalar yhat (-1)) y_train).
Proof.
  intros Hy Hyhat. unfold filter_training, apply_mask, mask_rows, bool_index.
  unfold nrows in *.
  assert (length (ne_scalar yhat (-1)) = length (rows X_train)) as Hm
    by (unfold ne_scalar; rewrite length_map; done).
  rewrite !decide_True by congruence. done.
Qed.

(** C2. Filtering the training set with the mask [yhat != -1] keeps the
    features and the targets aligned and in their original order: the rows
    kept are those at the strictly increasing positions [kept] of the labels
    other than [-1], and row [k] of the filtered features and entry [k] of
    the filtered targets are row [j] and entry [j] of the input for the
    same [j], the [k]-th of these positions. *)
Theorem filter_training_aligned X_train y_train yhat :
  nrows X_train = length y_train →
  length yhat = nrows X_train →
  ∃ X_kept y_kept,
    filter_training X_train y_train yhat = Ok (X_kept, y_kept) ∧
    ncols X_kept = ncols X_train ∧
    nrows X_kept = length y_kept ∧
    let kept := where_true 0 (ne_scalar yhat (-1)) in
    StronglySorted lt kept ∧
    (∀ j, j ∈ kept ↔ ∃ v, yhat !! j = Some v ∧ v ≠ (-1)%Z) ∧
    length kept = nrows X_kept ∧
    ∀ k j, kept !! k = Some j →
      rows X_kept !! k = rows X_train !! j ∧ y_kept !! k = y_train !! j.
Proof.
  intros Hy Hyhat. eexists _, _. split; [by apply filter_training_ok|].
  assert (length (ne_scalar yhat (-1)) = length (rows X_train)) as Hm
    by (unfold ne_scalar; rewrite length_map; done).
  assert (length (ne_scalar yhat (-1)) = length y_train) as Hm'
    by (unfold nrows in Hy; congruence).
  simpl. unfold nrows. simpl. repeat split.
  - by rewrite !length_compress.
  - apply where_true_sorted.
  - intros Hj. apply where_true_spec in Hj as [_ Hj].
    rewrite Nat.sub_0_r in Hj. unfold ne_scalar in Hj.
    rewrite list_lookup_fmap in Hj.
    destruct (yhat !! j) as [v|]; simplify_eq/=.
    exists v. split; [done|]. intros ->. done.
  - intros (v & Hv & Hne). apply where_true_spec. split; [lia|].
    rewrite Nat.sub_0_r. unfold ne_scalar. rewrite list_lookup_fmap, Hv.
    simpl. f_equal. by destruct (Z.eqb_spec v (-1)).
  - by rewrite length_where_true, length_compress.
  - rewrite (compress_lookup 0 _ _ k j) by done. by rewrite Nat.sub_0_r.
  - rewrite (compress_lookup 0 _ _ k j) by done. by rewrite Nat.sub_0_r.
Qed.

(** C3. The filtered training set has as many rows as the training set had,
    minus the number of rows the detector labelled [-1]; the same holds for
    the filtered targets. *)
Theorem filter_training_count X_train y_train yhat :
  nrows X_train = length y_train →
  length yhat = nrows X_train →
  ∃ X_kept y_kept,
    filter_training X_train y_train yhat = Ok (X_kept, y_kept) ∧
    nrows X_kept = nrows X_train - flagged yhat ∧
    length y_kept = length y_train - flagged yhat.
Proof.
  intros Hy Hyhat. eexists _, _. split; [by apply filter_training_ok|].
  assert (length (ne_scalar yhat (-1)) = length (rows X_train)) as Hm
    by (unfold ne_scalar; rewrite length_map; done).
  pose proof (count_true_ne_scalar yhat) as Hcount.
  unfold nrows in *. simpl.
  rewrite !length_compress by congruence. lia.
Qed.

(** ** The metric *)

Lemma errors_nonneg y_true y_pred :
  forallb is_finite y_true = true →
  forallb is_finite y_pred = true →
  Forall nonneg (zip_with (λ p t, f_abs (f_sub p t)) y_pred y_true).
Proof.
  revert y_true. induction y_pred as [|p y_pred IH]; intros [|t y_true];
    simpl; try constructor.
  - apply f_abs_nonneg, f_sub_finite; by destruct (is_finite p), (is_finite t).
  - apply IH.
    + by destruct (is_finite t).
    + by destruct (is_finite p).
Qed.

Lemma left_to_right_terms l : l ≠ [] → terms (left_to_right l) = l.
Proof.
  destruct l as [|x l]; [done|intros _]. simpl.
  assert (∀ t, terms (fold_left (λ t y, Plus t (Term y)) l t) = terms t ++ l)
    as Hfold.
  { induction l as [|y l IH]; intros t; simpl; [by rewrite app_nil_r|].
    rewrite IH. simpl. by rewrite <-app_assoc. }
  by rewrite Hfold.
Qed.

Lemma left_to_right_ok : sum_order_ok left_to_right.
Proof.
  intros l Hl. exists []. split; [constructor|].
  by rewrite left_to_right_terms, app_nil_r.
Qed.

(** C4. The mean absolute error of two arrays of the same length is not
    negative: whenever the metric is computed, [0.0 <= mae] holds, and it is
    computed for all arrays of equal positive length without NaN or
    infinity.  The order of the additions is any order that adds every
    absolute difference once; lengths are those of arrays ([< 2^63]). *)
Theorem mean_absolute_error_nonneg order y_true y_pred :
  sum_order_ok order →
  (Z.of_nat (length y_true) < 2 ^ 63)%Z →
  length y_true = length y_pred →
  (y_true ≠ [] →
   forallb is_finite y_true = true → forallb is_finite y_pred = true →
   ∃ mae, mean_absolute_error order y_true y_pred = Ok mae) ∧
  (∀ mae, mean_absolute_error order y_true y_pred = Ok mae →
          f_leb f_zero mae = true).
Proof.
  intros Horder Hsize Hlen. unfold mean_absolute_error.
  rewrite decide_True by done. split.
  - intros Hne Ht Hp. rewrite decide_False by done. rewrite Ht, Hp.
    simpl. eauto.
  - intros mae. destruct (decide (y_true = [])) as [|Hne]; [done|].
    destruct (forallb is_finite y_true) eqn:Ht; [|done].
    destruct (forallb is_finite y_pred) eqn:Hp; [|done].
    simpl. intros [= <-]. apply f_leb_zero.
    set (errors := zip_with _ y_pred y_true).
    assert (length errors = length y_true) as Hlen'.
    { unfold errors. rewrite length_zip_with. lia. }
    assert (errors ≠ []) as Herr.
    { intros Heq. rewrite Heq in Hlen'. by destruct y_true. }
    destruct (f_of_nat_finite (length errors)) as (m & e & ->).
    { rewrite Hlen'. destruct y_true; [done|simpl; lia]. }
    { by rewrite Hlen'. }
    apply SFdiv_nonneg, eval_sum_nonneg.
    destruct (Horder errors Herr) as (zs & Hzs & Hperm).
    rewrite Hperm. apply Forall_app. split.
    + by apply errors_nonneg.
    + eapply Forall_impl; [exact Hzs|]. by intros [].
Qed.

(** ** Taking rows by position *)

Section TakeAt.
Context {A : Type}.
Implicit Types (l : list A) (ind : list nat).

Lemma take_at_Forall2 l ind l' :
  take_at l ind = Ok l' ↔ Forall2 (λ i v, l !! i = Some v) ind l'.
Proof.
  unfold take_at. rewrite <-mapM_Some.
  destruct (mapM (λ i, l !! i) ind); split; intros H; by simplify_eq.
Qed.

Lemma take_at_total l ind :
  Forall (λ i, i < length l) ind → ∃ l', take_at l ind = Ok l'.
Proof.
  intros Hind. unfold take_at.
  destruct (mapM (λ i, l !! i) ind) as [l'|] eqn:Hm; [by eauto|].
  exfalso. assert (is_Some (mapM (λ i, l !! i) ind)) as [? ?]; [|congruence].
  apply mapM_is_Some. eapply Forall_impl; [exact Hind|].
  intros i Hi. by apply lookup_lt_is_Some.
Qed.

Lemma take_at_length l ind l' : take_at l ind = Ok l' → length l' = length ind.
Proof. intros H%take_at_Forall2. by apply Forall2_length in H. Qed.

Lemma take_at_all l l' : take_at l (seq 0 (length l)) = Ok l' → l' = l.
Proof.
  intros H%take_at_Forall2. apply list_eq. intros i.
  destruct (l' !! i) as [v|] eqn:Hv.
  - destruct (Forall2_lookup_r _ _ _ _ _ H Hv) as (j & Hj & Hl).
    apply lookup_seq in Hj as [-> _]. done.
  - symmetry. apply lookup_ge_None. apply lookup_ge_None in Hv.
    apply Forall2_length in H. rewrite length_seq in H. lia.
Qed.

(** Taking every position once, in any order, rearranges the array. *)
Lemma take_at_permutation l ind l' :
  take_at l ind = Ok l' → ind ≡ₚ seq 0 (length l) → l' ≡ₚ l.
Proof.
  intros H%take_at_Forall2 Hperm.
  destruct (Permutation_Forall2 Hperm H) as (l'' & Hl'' & Hall).
  apply take_at_Forall2, take_at_all in Hall. by subst.
Qed.

Lemma take_at_app l ind1 ind2 l1 l2 :
  take_at l ind1 = Ok l1 → take_at l ind2 = Ok l2 →
  take_at l (ind1 ++ ind2) = Ok (l1 ++ l2).
Proof.
  rewrite !take_at_Forall2. apply Forall2_app.
Qed.
End TakeAt.

Lemma take_at_zip {A B} (l : list A) (k : list B) ind l' k' :
  take_at l ind = Ok l' → take_at k ind = Ok k' →
  take_at (zip l k) ind = Ok (zip l' k').
Proof.
  rewrite !take_at_Forall2. intros Hl. revert k'.
  induction Hl as [|i v ind l' Hi Hl IH]; intros k' Hk;
    inversion Hk as [|? w ? k'' Hj Hk']; simplify_eq/=; constructor; auto.
  by apply lookup_zip_Some.
Qed.

(** ** The train/test split *)

Section Split.
Context {G : Type} (L : library G).

Lemma train_test_split_seeded X y test_size seed g1 g2 :
  train_test_split L X y test_size (Some seed) g1
  = train_test_split L X y test_size (Some seed) g2.
Proof. done. Qed.

Lemma length_permutation rng n :
  library_ok L → length (permutation L rng n) = n.
Proof.
  intros [Hperm _]. rewrite (Permutation_length (Hperm rng n)).
  apply length_seq.
Qed.

(** The test positions followed by the training positions are the whole
    shuffle. *)
Lemma shuffle_split_app rng n n_test :
  library_ok L →
  (shuffle_split L rng n n_test).2 ++ (shuffle_split L rng n n_test).1
  = permutation L rng n.
Proof.
  intros HL. unfold shuffle_split. simpl.
  rewrite (take_ge (drop _ _)); [apply take_drop|].
  rewrite length_drop, length_permutation by done. lia.
Qed.

Lemma shuffle_split_permutation rng n n_test :
  library_ok L →
  (shuffle_split L rng n n_test).1 ++ (shuffle_split L rng n n_test).2
  ≡ₚ seq 0 n.
Proof.
  intros HL. rewrite Permutation_app_comm, shuffle_split_app by done.
  apply HL.
Qed.

Lemma n_test_of_third n : 2 ≤ n → n_test_of (33 # 100) n < n.
Proof.
  intros Hn. unfold n_test_of, Qceiling, Qfloor. simpl.
  change (Z.pos (100 * 1)) with 100%Z.
  match goal with
  | |- context [(?a `div` 100)%Z] =>
      assert (- Z.of_nat n + 1 ≤ a `div` 100)%Z
        by (apply Z.div_le_lower_bound; lia)
  end.
  lia.
Qed.

Lemma take_rows_inv X ind X' :
  take_rows X ind = Ok X' →
  take_at (rows X) ind = Ok (rows X') ∧ ncols X' = ncols X.
Proof.
  unfold take_rows. destruct (take_at (rows X) ind) as [e|rs]; [done|].
  simpl. by intros [= <-].
Qed.

Lemma take_rows_total X ind :
  Forall (λ i, i < nrows X) ind → ∃ X', take_rows X ind = Ok X'.
Proof.
  intros [rs Hrs]%take_at_total. unfold take_rows. rewrite Hrs. simpl. eauto.
Qed.

Lemma train_test_split_inv X y test_size random_state g
    X_train X_test y_train y_test :
  train_test_split L X y test_size random_state g
  = Ok (X_train, X_test, y_train, y_test) →
  let rng := check_random_state L random_state g in
  let parts := shuffle_split L rng (nrows X) (n_test_of test_size (nrows X)) in
  nrows X = length y ∧
  take_rows X parts.1 = Ok X_train ∧ take_rows X parts.2 = Ok X_test ∧
  take_at y parts.1 = Ok y_train ∧ take_at y parts.2 = Ok y_test.
Proof.
  unfold train_test_split. case_decide; [|done].
  destruct (valid_test_size test_size); [|done]. case_decide; [done|].
  destruct (shuffle_split _ _ _ _) as [ind_train ind_test]. simpl.
  destruct (take_rows X ind_train) as [?|X1]; [done|]. simpl.
  destruct (take_rows X ind_test) as [?|X2]; [done|]. simpl.
  destruct (take_at y ind_train) as [?|y1]; [done|]. simpl.
  destruct (take_at y ind_test) as [?|y2]; [done|]. simpl.
  by intros [= <- <- <- <-].
Qed.

Lemma train_test_split_total X y random_state g :
  library_ok L → nrows X = length y → 2 ≤ nrows X →
  ∃ parts, train_test_split L X y (33 # 100) random_state g = Ok parts.
Proof.
  intros HL Hlen Hn. unfold train_test_split.
  rewrite decide_True by done.
  change (valid_test_size (33 # 100)) with true. cbv beta iota zeta.
  pose proof (n_test_of_third (nrows X) Hn) as Htest.
  rewrite decide_False by lia.
  pose proof (shuffle_split_permutation (check_random_state L random_state g)
                (nrows X) (n_test_of (33 # 100) (nrows X)) HL) as Hperm.
  destruct (shuffle_split _ _ _ _) as [ind_train ind_test]. simpl in Hperm.
  assert (Forall (λ i, i < nrows X) (ind_train ++ ind_test)) as Hall.
  { rewrite Hperm. apply Forall_forall. intros i Hi%elem_of_seq. lia. }
  apply Forall_app in Hall as [Htrain Htest'].
  destruct (take_rows_total X ind_train Htrain) as [X1 ->].
  destruct (take_rows_total X ind_test Htest') as [X2 ->].
  destruct (take_at_total y ind_train) as [y1 ->].
  { eapply Forall_impl; [exact Htrain|]. simpl. lia. }
  destruct (take_at_total y ind_test) as [y2 ->].
  { eapply Forall_impl; [exact Htest'|]. simpl. lia. }
  simpl. eauto.
Qed.
End Split.

(** ** Running the cells *)

Section Steps.
Context {A B : Type}.
Implicit Types (k : kernel) (f : A → M B).

Lemma run_bind_bind {C} (m : M C) (h : C → M A) f k :
  ((m ≫= h) ≫= f) k = (m ≫= λ c, h c ≫= f) k.
Proof.
  unfold mbind, M_bind. destruct (m k) as [[e|c] k']; [done|].
  by destruct (h c k') as [[e|a] k''].
Qed.

Lemma run_ret a f k : (mret a ≫= f) k = f a k.
Proof. done. Qed.

Lemma run_lift_ok a f k : (lift (Ok a) ≫= f) k = f a k.
Proof. done. Qed.

Lemma run_lift_raise e f k : (lift (Raise e) ≫= f) k = (Raise e, k).
Proof. done. Qed.

Lemma run_invoke_ok c a f k :
  (invoke c (Ok a) ≫= f) k
  = f a (Kernel (names k) (stdout k) (calls k ++ [c])).
Proof. done. Qed.

Lemma run_invoke_raise c e f k :
  (invoke c (Raise e) ≫= f) k
  = (Raise e, Kernel (names k) (stdout k) (calls k ++ [c])).
Proof. done. Qed.
End Steps.

Lemma run_assign {B} x v (f : unit → M B) k :
  (assign x v ≫= f) k
  = f () (Kernel (<[x:=v]> (names k)) (stdout k) (calls k)).
Proof. done. Qed.

Lemma run_name {B} x v (f : value → M B) k :
  names k !! x = Some v → (name x ≫= f) k = f v k.
Proof. intros Hx. unfold mbind, M_bind, name. by rewrite Hx. Qed.

Lemma run_print {B} p (f : unit → M B) k :
  (print p ≫= f) k = f () (Kernel (names k) (stdout k ++ [p]) (calls k)).
Proof. done. Qed.

Ltac find_name :=
  cbn [names];
  repeat first [ apply lookup_insert_eq | rewrite lookup_insert_ne by done ];
  try eassumption.

Ltac unfold_reads :=
  unfold as_str, as_frame, as_arr2, as_arr1, as_ints, as_bools, as_detector,
    as_model, as_float;
  cbn [names stdout calls external].

(** One statement at a time. *)
Ltac step :=
  unfold_reads;
  first
    [ rewrite run_bind_bind
    | rewrite run_assign
    | rewrite run_print
    | erewrite run_name by find_name
    | rewrite run_lift_ok
    | rewrite run_lift_raise
    | rewrite run_invoke_ok
    | rewrite run_invoke_raise
    | rewrite run_ret ];
  unfold_reads.

(** ** Names read and names bound *)

Section SelfContained.
Context {A : Type}.
Implicit Types (R D : gset string) (p : M A).

Lemma self_contained_weaken R D D' p :
  self_contained R D p → D' ⊆ D → self_contained R D' p.
Proof.
  intros Hp HD W out log HR.
  destruct (Hp W out log HR) as (r & W' & out' & log' & Hdom & HD' & Hrun).
  exists r, W', out', log'. split_and!; [done| |done].
  intros a Ha. specialize (HD' a Ha). set_solver.
Qed.

Lemma self_contained_bind {B} R D D' (m : M B) (f : B → M A) :
  self_contained R D m →
  (∀ b, self_contained (R ∪ D) D' (f b)) →
  self_contained R (D ∪ D') (m ≫= f).
Proof.
  intros Hm Hf W out log HR.
  destruct (Hm W out log HR) as (r & W1 & out1 & log1 & Hdom1 & HD1 & Hrun1).
  destruct r as [e|b].
  - exists (inl e), W1, out1, log1. split_and!; [done|done|].
    intros ns. unfold mbind, M_bind. by rewrite Hrun1.
  - specialize (HD1 b eq_refl).
    destruct (Hf b W1 out1 log1) as (r & W2 & out2 & log2 & Hdom2 & HD2 & Hrun2);
      [set_solver|].
    exists r, W2, out2, log2. split_and!.
    + set_solver.
    + intros a Ha. specialize (HD2 a Ha). set_solver.
    + intros ns. unfold mbind, M_bind. rewrite Hrun1. apply Hrun2.
Qed.

Lemma self_contained_lift R (r : result A) : self_contained R ∅ (lift r).
Proof.
  intros W out log HR. exists r, W, out, log. split_and!; [done|set_solver|done].
Qed.

Lemma self_contained_invoke R c (r : result A) :
  self_contained R ∅ (invoke c r).
Proof.
  intros W out log HR. exists r, W, out, (log ++ [c]).
  split_and!; [done|set_solver|done].
Qed.
End SelfContained.

Lemma self_contained_assign R x v : self_contained R {[x]} (assign x v).
Proof.
  intros W out log HR. exists (Ok ()), (<[x:=v]> W), out, log. split_and!.
  - rewrite dom_insert_L. set_solver.
  - intros _ _. rewrite dom_insert_L. set_solver.
  - intros ns. unfold assign. simpl. by rewrite insert_union_l.
Qed.

Lemma self_contained_name R x : x ∈ R → self_contained R ∅ (name x).
Proof.
  intros Hx W out log HR.
  assert (is_Some (W !! x)) as [v Hv] by (apply elem_of_dom; set_solver).
  exists (Ok v), W, out, log. split_and!; [done|set_solver|].
  intros ns. unfold name. simpl.
  by rewrite (lookup_union_Some_l _ _ _ _ Hv).
Qed.

Lemma self_contained_print R p : self_contained R ∅ (print p).
Proof.
  intros W out log HR. exists (Ok ()), W, (out ++ [p]), log.
  split_and!; [done|set_solver|done].
Qed.

Ltac self_contained_step :=
  lazymatch goal with
  | |- self_contained _ _ (_ ≫= _) => eapply self_contained_bind
  | |- self_contained _ _ (assign _ _) => apply self_contained_assign
  | |- self_contained _ _ (name _) => apply self_contained_name; set_solver
  | |- self_contained _ _ (print _) => apply self_contained_print
  | |- self_contained _ _ (invoke _ _) => apply self_contained_invoke
  | |- self_contained _ _ (lift _) => apply self_contained_lift
  | |- self_contained _ _ (match ?x with _ => _ end) => destruct x
  | |- ∀ _, _ => intros ?
  end.

Ltac self_contained_auto :=
  eapply self_contained_weaken;
  [ unfold as_str, as_frame, as_arr2, as_arr1, as_ints, as_bools,
      as_detector, as_model, as_float;
    repeat self_contained_step
  | set_solver ].

(** ** Names left alone *)

Section BindsOnly.
Context {A : Type}.
Implicit Types (S : gset string) (p : M A).

Lemma binds_only_bind {B} S (m : M B) (f : B → M A) :
  binds_only S m → (∀ b, binds_only S (f b)) → binds_only S (m ≫= f).
Proof.
  intros Hm Hf k x Hx. unfold mbind, M_bind.
  specialize (Hm k x Hx). destruct (m k) as [[e|b] k1]; [done|].
  simpl in Hm. by rewrite Hf.
Qed.

Lemma binds_only_lift S (r : result A) : binds_only S (lift r).
Proof. done. Qed.

Lemma binds_only_invoke S c (r : result A) : binds_only S (invoke c r).
Proof. done. Qed.
End BindsOnly.

Lemma binds_only_assign S x v : x ∈ S → binds_only S (assign x v).
Proof.
  intros Hx k x' Hx'. simpl. apply lookup_insert_ne. set_solver.
Qed.

Lemma binds_only_name S x : binds_only S (name x).
Proof. intros k x' _. unfold name. by destruct (names k !! x). Qed.

Lemma binds_only_print S p : binds_only S (print p).
Proof. done. Qed.

Ltac binds_only_step :=
  lazymatch goal with
  | |- binds_only _ (_ ≫= _) => apply binds_only_bind
  | |- binds_only _ (assign _ _) => apply binds_only_assign; set_solver
  | |- binds_only _ (name _) => apply binds_only_name
  | |- binds_only _ (print _) => apply binds_only_print
  | |- binds_only _ (invoke _ _) => apply binds_only_invoke
  | |- binds_only _ (lift _) => apply binds_only_lift
  | |- binds_only _ (match ?x with _ => _ end) => destruct x
  | |- ∀ _, _ => intros ?
  end.

Ltac binds_only_auto :=
  unfold as_str, as_frame, as_arr2, as_arr1, as_ints, as_bools,
    as_detector, as_model, as_float;
  repeat binds_only_step.

Section Blocks.
Context {G : Type} (L : library G) (g : G).

Lemma load_dataset_self_contained R :
  self_contained R {["X"; "y"]} (load_dataset L).
Proof. unfold load_dataset. self_contained_auto. Qed.

Lemma split_dataset_self_contained R :
  "X" ∈ R → "y" ∈ R →
  self_contained R {["X_train"; "X_test"; "y_train"; "y_test"]}
    (split_dataset L g).
Proof. intros ??. unfold split_dataset. self_contained_auto. Qed.

Lemma print_shapes_self_contained R :
  "X_train" ∈ R → "y_train" ∈ R → self_contained R ∅ print_shapes.
Proof. intros ??. unfold print_shapes. self_contained_auto. Qed.

Lemma remove_outliers_self_contained R det d :
  "X_train" ∈ R → "y_train" ∈ R →
  self_contained R ∅ (remove_outliers L g det d).
Proof. intros ??. unfold remove_outliers. self_contained_auto. Qed.

Lemma fit_and_evaluate_self_contained R :
  "X_train" ∈ R → "y_train" ∈ R → "X_test" ∈ R → "y_test" ∈ R →
  self_contained R ∅ (fit_and_evaluate L).
Proof. intros ????. unfold fit_and_evaluate. self_contained_auto. Qed.

Lemma baseline_cell_self_contained :
  self_contained ∅ ∅ (baseline_cell L g).
Proof.
  unfold baseline_cell. eapply self_contained_weaken.
  - eapply self_contained_bind; [apply load_dataset_self_contained|intros _].
    eapply self_contained_bind;
      [apply split_dataset_self_contained; set_solver|intros _].
    apply fit_and_evaluate_self_contained; set_solver.
  - set_solver.
Qed.

Lemma outlier_cell_self_contained det d :
  self_contained ∅ ∅ (outlier_cell L g det d).
Proof.
  unfold outlier_cell. eapply self_contained_weaken.
  - eapply self_contained_bind; [apply load_dataset_self_contained|intros _].
    eapply self_contained_bind;
      [apply split_dataset_self_contained; set_solver|intros _].
    eapply self_contained_bind;
      [apply print_shapes_self_contained; set_solver|intros _].
    eapply self_contained_bind;
      [apply remove_outliers_self_contained; set_solver|intros _].
    eapply self_contained_bind;
      [apply print_shapes_self_contained; set_solver|intros _].
    apply fit_and_evaluate_self_contained; set_solver.
  - set_solver.
Qed.

Lemma remove_outliers_binds_only det d :
  binds_only {[det; "yhat"; "mask"; "X_train"; "y_train"]}
    (remove_outliers L g det d).
Proof. unfold remove_outliers. binds_only_auto. Qed.
End Blocks.

(** ** What each group of statements does *)

Lemma run_seq {A B} (m : M A) (f : A → M B) k :
  (m ≫= f) k =
  match m k with
  | (inl e, k') => (inl e, k')
  | (inr a, k') => f a k'
  end.
Proof. done. Qed.

Section Runs.
Context {G : Type} (L : library G) (g : G).

Lemma load_dataset_run k :
  load_dataset L k =
  let log := calls k ++ [CReadCsv housing_url None] in
  match read_csv L housing_url None with
  | inl what =>
      (Raise (Raised what),
       Kernel (<["url":=VStr housing_url]> (names k)) (stdout k) log)
  | inr data =>
      let ns := <["data":=VArr2 data]> (<["df":=VFrame data]>
                  (<["url":=VStr housing_url]> (names k))) in
      match col_last data with
      | inl e => (Raise e, Kernel ns (stdout k) log)
      | inr y =>
          (Ok (),
           Kernel (<["y":=VArr1 y]> (<["X":=VArr2 (cols_init data)]> ns))
                  (stdout k) log)
      end
  end.
Proof.
  unfold load_dataset. repeat step.
  destruct (read_csv L housing_url None) as [what|data]; repeat step;
    [done|].
  destruct (col_last data) as [e|y]; repeat step; done.
Qed.

Lemma split_dataset_run k X y :
  names k !! "X" = Some (VArr2 X) →
  names k !! "y" = Some (VArr1 y) →
  split_dataset L g k =
  let log := calls k ++ [CSplit X y (33 # 100) (Some 1%Z)] in
  match train_test_split L X y (33 # 100) (Some 1%Z) g with
  | inl e => (Raise e, Kernel (names k) (stdout k) log)
  | inr (X_train, X_test, y_train, y_test) =>
      (Ok (),
       Kernel (<["y_test":=VArr1 y_test]> (<["y_train":=VArr1 y_train]>
                (<["X_test":=VArr2 X_test]> (<["X_train":=VArr2 X_train]>
                (names k)))))
              (stdout k) log)
  end.
Proof.
  intros HX Hy. unfold split_dataset. repeat step.
  destruct (train_test_split L X y (33 # 100) (Some 1%Z) g)
    as [e|[[[X_train X_test] y_train] y_test]]; repeat step; done.
Qed.

Lemma print_shapes_run k X_train y_train :
  names k !! "X_train" = Some (VArr2 X_train) →
  names k !! "y_train" = Some (VArr1 y_train) →
  print_shapes k =
  (Ok (),
   Kernel (names k)
          (stdout k ++ [PShapes (shape X_train) (length y_train)])
          (calls k)).
Proof. intros HX Hy. unfold print_shapes. repeat step. done. Qed.

Lemma remove_outliers_run k det d X_train y_train :
  det ≠ "X_train" → det ≠ "y_train" →
  names k !! "X_train" = Some (VArr2 X_train) →
  names k !! "y_train" = Some (VArr1 y_train) →
  remove_outliers L g det d k =
  let log := calls k ++ [CFitPredict d X_train] in
  match fit_predict L d g X_train with
  | inl what =>
      (Raise (Raised what),
       Kernel (<[det:=VDetector d]> (names k)) (stdout k) log)
  | inr yhat =>
      let ns := <["mask":=VBools (ne_scalar yhat (-1))]>
                  (<["yhat":=VInts yhat]>
                  (<[det:=VDetector d]> (names k))) in
      match filter_training X_train y_train yhat with
      | inl e => (Raise e, Kernel ns (stdout k) log)
      | inr (X_kept, y_kept) =>
          (Ok (),
           Kernel (<["y_train":=VArr1 y_kept]>
                    (<["X_train":=VArr2 X_kept]> ns))
                  (stdout k) log)
      end
  end.
Proof.
  intros Hdet1 Hdet2 HX Hy. unfold remove_outliers. repeat step.
  destruct (fit_predict L d g X_train) as [what|yhat]; repeat step; [done|].
  unfold filter_training, apply_mask.
  destruct (mask_rows X_train (ne_scalar yhat (-1))) as [e|X_kept];
    repeat step; [done|].
  destruct (bool_index y_train (ne_scalar yhat (-1))) as [e|y_kept];
    repeat step; done.
Qed.

Lemma fit_and_evaluate_run k X_train y_train X_test y_test :
  names k !! "X_train" = Some (VArr2 X_train) →
  names k !! "y_train" = Some (VArr1 y_train) →
  names k !! "X_test" = Some (VArr2 X_test) →
  names k !! "y_test" = Some (VArr1 y_test) →
  fit_and_evaluate L k =
  let ns0 := <["model":=VModel None]> (names k) in
  let log1 := calls k ++ [CFit X_train y_train] in
  match lr_fit L X_train y_train with
  | inl what => (Raise (Raised what), Kernel ns0 (stdout k) log1)
  | inr m =>
      let ns1 := <["model":=VModel (Some m)]> ns0 in
      let log2 := log1 ++ [CPredict m X_test] in
      match lr_predict L m X_test with
      | inl what => (Raise (Raised what), Kernel ns1 (stdout k) log2)
      | inr pred =>
          let ns2 := <["yhat":=VArr1 pred]> ns1 in
          let log3 := log2 ++ [CMae y_test pred] in
          match mean_absolute_error (sum_order L) y_test pred with
          | inl e => (Raise e, Kernel ns2 (stdout k) log3)
          | inr mae =>
              (Ok (),
               Kernel (<["mae":=VFloat mae]> ns2)
                      (stdout k ++ [PMae mae]) log3)
          end
      end
  end.
Proof.
  intros HX Hy HXt Hyt. unfold fit_and_evaluate. repeat step.
  destruct (lr_fit L X_train y_train) as [what|m]; repeat step; [done|].
  destruct (lr_predict L m X_test) as [what|pred]; repeat step; [done|].
  destruct (mean_absolute_error (sum_order L) y_test pred) as [e|mae];
    repeat step; done.
Qed.
End Runs.

(** ** Loading the table *)

Lemma last_removelast {A} (r : list A) :
  r ≠ [] → ∃ t, last r = Some t ∧ r = removelast r ++ [t].
Proof.
  induction r as [|a r IH]; [done|intros _].
  destruct r as [|b r]; [by exists a|].
  destruct IH as (t & Ht & Hr); [done|].
  exists t. split; [done|]. simpl in *. by rewrite <-Hr.
Qed.

Lemma col_last_wf data :
  wf_matrix data → 0 < ncols data →
  ∃ y, col_last data = Ok y ∧ length y = nrows data ∧
    ∀ i r, rows data !! i = Some r →
      ∃ t, y !! i = Some t ∧ r = removelast r ++ [t].
Proof.
  intros Hwf Hcols. unfold col_last.
  destruct (ncols data) as [|w] eqn:Hw; [lia|].
  assert (Forall (λ r : list float, r ≠ []) (rows data)) as Hne.
  { eapply Forall_impl; [exact Hwf|]. simpl. intros r Hr ->.
    simpl in Hr. lia. }
  destruct (mapM (λ r : list float, last r) (rows data)) as [y|] eqn:Hy.
  - exists y. apply mapM_Some in Hy. split; [done|]. split.
    + symmetry. by apply Forall2_length in Hy.
    + intros i r Hr.
      destruct (Forall2_lookup_l _ _ _ _ _ Hy Hr) as (t & Ht & Hlast).
      exists t. split; [done|].
      destruct (last_removelast r) as (t' & Ht' & Heq).
      { rewrite Forall_forall in Hne. apply Hne.
        by eapply list_elem_of_lookup_2. }
      congruence.
  - exfalso.
    assert (is_Some (mapM (λ r : list float, last r) (rows data)))
      as [? ?]; [|congruence].
    apply mapM_is_Some. eapply Forall_impl; [exact Hne|].
    intros r Hr. destruct (last_removelast r Hr) as (t & Ht & _).
    by exists t.
Qed.

(** C7. The table is read with [header=None], so every line of the file is
    a row of data, and it is split by columns: the last column becomes the
    target [y] and the columns before it the features [X]; row [i] of the
    table is row [i] of [X] followed by entry [i] of [y]. *)
Theorem load_dataset_columns {G} (L : library G) (k : kernel) data :
  read_csv L housing_url None = inr data →
  wf_matrix data → 0 < ncols data →
  ∃ y k',
    load_dataset L k = (Ok (), k') ∧
    calls k' = calls k ++ [CReadCsv housing_url None] ∧
    names k' !! "X" = Some (VArr2 (cols_init data)) ∧
    names k' !! "y" = Some (VArr1 y) ∧
    shape (cols_init data) = (nrows data, ncols data - 1) ∧
    length y = nrows data ∧
    ∀ i r, rows data !! i = Some r →
      ∃ x t, rows (cols_init data) !! i = Some x ∧ y !! i = Some t ∧
             r = x ++ [t].
Proof.
  intros Hread Hwf Hcols.
  destruct (col_last_wf data Hwf Hcols) as (y & Hy & Hlen & Hrows).
  exists y. eexists. rewrite load_dataset_run, Hread, Hy. cbv zeta.
  split; [done|]. cbn [names calls]. split_and!; try done.
  - by rewrite lookup_insert_ne, lookup_insert_eq.
  - by rewrite lookup_insert_eq.
  - unfold shape, cols_init, nrows. simpl. by rewrite length_map.
  - intros i r Hr. destruct (Hrows i r Hr) as (t & Ht & Heq).
    exists (removelast r), t. split_and!; try done.
    unfold cols_init. simpl. by rewrite list_lookup_fmap, Hr.
Qed.

(** ** Independence of the cells *)

Lemma self_contained_run (c : M unit) ns :
  self_contained ∅ ∅ c →
  run_cell c ns =
    ((run_cell c ∅).1,
     Kernel (names (run_cell c ∅).2 ∪ ns)
            (stdout (run_cell c ∅).2) (calls (run_cell c ∅).2)).
Proof.
  intros Hc. unfold run_cell.
  destruct (Hc ∅ [] []) as (r & W & out & log & _ & _ & Hrun); [done|].
  pose proof (Hrun ns) as Hns. pose proof (Hrun ∅) as H0.
  rewrite (left_id_L ∅ (∪)) in Hns, H0. rewrite Hns, H0. simpl.
  by rewrite (right_id_L ∅ (∪)).
Qed.

Lemma notebook_cells_self_contained {G} (L : library G) g c :
  c ∈ notebook_cells L g → self_contained ∅ ∅ c.
Proof.
  unfold notebook_cells. rewrite !elem_of_cons, elem_of_nil.
  intros [->|[->|[->|[->|[->|[]]]]]];
    [apply baseline_cell_self_contained|apply outlier_cell_self_contained..].
Qed.


(** ** The paths through an outlier cell *)

(** Runs the cell symbolically and leaves one goal per outcome: the nine
    ways it can raise, then the completed run. *)
Ltac run_outlier_cell :=
  unfold run_cell, outlier_cell;
  rewrite run_seq, load_dataset_run; cbv beta iota zeta;
  destruct (read_csv _ _ _) as [what|data] eqn:Hread;
  [|destruct (col_last data) as [e|y] eqn:Hlast;
    [|rewrite run_seq; erewrite split_dataset_run by find_name; cbv beta iota zeta;
      destruct (train_test_split _ _ _ _ _ _)
        as [e|[[[X_train X_test] y_train] y_test]] eqn:Hsplit;
      [|rewrite run_seq; erewrite print_shapes_run by find_name;
        rewrite run_seq;
        erewrite remove_outliers_run by first [assumption | find_name]; cbv beta iota zeta;
        destruct (fit_predict _ _ _ _) as [what|yhat] eqn:Hdetect;
        [|destruct (filter_training _ _ _) as [e|[X_kept y_kept]] eqn:Hfilter;
          [|rewrite run_seq; erewrite print_shapes_run by find_name;
            erewrite fit_and_evaluate_run by find_name; cbv beta iota zeta;
            destruct (lr_fit _ _ _) as [what|m] eqn:Hfit;
            [|destruct (lr_predict _ _ _) as [what|pred] eqn:Hpredict;
              [|destruct (mean_absolute_error _ _ _) as [e|mae] eqn:Hmae]]]]]]];
  cbn [fst snd names stdout calls app].

Ltac no_such_call H :=
  repeat (apply elem_of_cons in H as [H|H]; [by simplify_eq|]);
  by apply elem_of_nil in H.

Section OutlierCell.
Context {G : Type} (L : library G) (g : G).

(** C10. In a run of an outlier cell the detector is fit on the training
    features of the split and on nothing else; the filtering statements
    leave [X_test] and [y_test] as they are, whether they complete or
    raise; and a completed run has predicted for every row of [X_test]
    and computed the error against every entry of [y_test], both as the
    split returned them. *)
Theorem test_set_untouched det d ns r k' :
  det ≠ "X_train" → det ≠ "y_train" → det ≠ "X_test" → det ≠ "y_test" →
  run_cell (outlier_cell L g det d) ns = (r, k') →
  (∀ k,
     names (remove_outliers L g det d k).2 !! "X_test" = names k !! "X_test" ∧
     names (remove_outliers L g det d k).2 !! "y_test" = names k !! "y_test") ∧
  (∀ d' X', CFitPredict d' X' ∈ calls k' →
     d' = d ∧
     ∃ data y X_test y_train y_test,
       read_csv L housing_url None = inr data ∧ col_last data = Ok y ∧
       train_test_split L (cols_init data) y (33 # 100) (Some 1%Z) g
       = Ok (X', X_test, y_train, y_test)) ∧
  (r = Ok () →
   ∃ data y X_train X_test y_train y_test yhat X_kept y_kept m pred mae,
     read_csv L housing_url None = inr data ∧ col_last data = Ok y ∧
     train_test_split L (cols_init data) y (33 # 100) (Some 1%Z) g
     = Ok (X_train, X_test, y_train, y_test) ∧
     fit_predict L d g X_train = inr yhat ∧
     filter_training X_train y_train yhat = Ok (X_kept, y_kept) ∧
     lr_fit L X_kept y_kept = inr m ∧
     lr_predict L m X_test = inr pred ∧
     mean_absolute_error (sum_order L) y_test pred = Ok mae ∧
     names k' !! "X_test" = Some (VArr2 X_test) ∧
     names k' !! "y_test" = Some (VArr1 y_test) ∧
     names k' !! "X_train" = Some (VArr2 X_kept) ∧
     names k' !! "y_train" = Some (VArr1 y_kept) ∧
     calls k' =
       [ CReadCsv housing_url None;
         CSplit (cols_init data) y (33 # 100) (Some 1%Z);
         CFitPredict d X_train; CFit X_kept y_kept; CPredict m X_test;
         CMae y_test pred ] ∧
     stdout k' =
       [ PShapes (shape X_train) (length y_train);
         PShapes (shape X_kept) (length y_kept); PMae mae ]).
Proof.
  intros Hdet1 Hdet2 Hdet3 Hdet4 Hrun. split.
  { intros k. split; apply remove_outliers_binds_only; set_solver. }
  revert Hrun. run_outlier_cell; intros [= <- <-]; cbn [names stdout calls];
    (split; [intros d' X' Hin|intros Hok; try done]);
    try (by no_such_call Hin).
  all: try (repeat (apply elem_of_cons in Hin as [Hin|Hin];
                    [simplify_eq; try (split; [done|]; by eauto 10)|]);
            by apply elem_of_nil in Hin).
  do 12 eexists.
  repeat (split; [first [eassumption | reflexivity | by find_name]|]).
  reflexivity.
Qed.

Lemma outlier_cell_splits_once det d ns r k' :
  det ≠ "X_train" → det ≠ "y_train" → det ≠ "X_test" → det ≠ "y_test" →
  run_cell (outlier_cell L g det d) ns = (r, k') →
  split_count (calls k') ≤ 1 ∧ (r = Ok () → split_count (calls k') = 1).
Proof.
  intros Hdet1 Hdet2 Hdet3 Hdet4.
  run_outlier_cell; intros [= <- <-]; cbn; split; (lia || done).
Qed.

Lemma baseline_cell_splits_once ns r k' :
  run_cell (baseline_cell L g) ns = (r, k') →
  split_count (calls k') ≤ 1 ∧ (r = Ok () → split_count (calls k') = 1).
Proof.
  unfold run_cell, baseline_cell.
  rewrite run_seq, load_dataset_run. cbv beta iota zeta.
  destruct (read_csv _ _ _) as [what|data];
    [intros [= <- <-]; cbn; split; (lia || done)|].
  destruct (col_last data) as [e|y];
    [intros [= <- <-]; cbn; split; (lia || done)|].
  rewrite run_seq. erewrite split_dataset_run by find_name.
  cbv beta iota zeta.
  destruct (train_test_split _ _ _ _ _ _)
    as [e|[[[X_train X_test] y_train] y_test]];
    [intros [= <- <-]; cbn; split; (lia || done)|].
  erewrite fit_and_evaluate_run by find_name. cbv beta iota zeta.
  destruct (lr_fit _ _ _) as [what|m];
    [intros [= <- <-]; cbn; split; (lia || done)|].
  destruct (lr_predict _ _ _) as [what|pred];
    [intros [= <- <-]; cbn; split; (lia || done)|].
  destruct (mean_absolute_error _ _ _) as [e|mae];
    intros [= <- <-]; cbn; split; (lia || done).
Qed.

Lemma notebook_cells_split_once c ns :
  c ∈ notebook_cells L g →
  split_count (calls (run_cell c ns).2) ≤ 1 ∧
  ((run_cell c ns).1 = Ok () → split_count (calls (run_cell c ns).2) = 1).
Proof.
  unfold notebook_cells. rewrite !elem_of_cons, elem_of_nil.
  destruct (run_cell c ns) as [r k'] eqn:Hrun. simpl.
  intros [->|[->|[->|[->|[->|[]]]]]];
    [by eapply baseline_cell_splits_once
    |eapply outlier_cell_splits_once; [..|exact Hrun]; done..].
Qed.
End OutlierCell.

(** ** The split, as the cells call it *)

Section SplitClaims.
Context {G : Type} (L : library G).

Lemma split_dataset_seeded g1 g2 : split_dataset L g1 = split_dataset L g2.
Proof. done. Qed.

(** C5. With the seed [random_state=1] the split is reproducible: the
    library's split of the same arrays is the same whatever the state of
    the ambient generator, and two runs of the loading and splitting
    statements, in any two namespaces and generator states, end the same
    way and, when they complete, bind [X_train], [X_test], [y_train] and
    [y_test] to the same arrays. *)
Theorem split_reproducible g1 g2 ns1 ns2 :
  (∀ X y,
     train_test_split L X y (33 # 100) (Some 1%Z) g1
     = train_test_split L X y (33 # 100) (Some 1%Z) g2) ∧
  let run1 := run_cell (load_dataset L;; split_dataset L g1) ns1 in
  let run2 := run_cell (load_dataset L;; split_dataset L g2) ns2 in
  run1.1 = run2.1 ∧
  (run1.1 = Ok () →
   ∀ x, x ∈ ["X_train"; "X_test"; "y_train"; "y_test"] →
     is_Some (names run1.2 !! x) ∧ names run1.2 !! x = names run2.2 !! x).
Proof.
  split; [done|]. intros run1 run2. subst run1 run2.
  rewrite <-(split_dataset_seeded g1 g2). unfold run_cell.
  assert (self_contained ∅ {["X_train"; "X_test"; "y_train"; "y_test"]}
            (load_dataset L;; split_dataset L g1)) as Hc.
  { eapply self_contained_weaken.
    - eapply self_contained_bind;
        [apply load_dataset_self_contained|intros _].
      apply split_dataset_self_contained; set_solver.
    - set_solver. }
  destruct (Hc ∅ [] []) as (r & W & out & log & _ & HD & Hrun); [done|].
  pose proof (Hrun ns1) as H1. pose proof (Hrun ns2) as H2.
  rewrite (left_id_L ∅ (∪)) in H1, H2. rewrite H1, H2. simpl.
  split; [done|]. intros -> x Hx.
  assert (is_Some (W !! x)) as [v Hv].
  { apply elem_of_dom. specialize (HD () eq_refl). set_solver. }
  rewrite !(lookup_union_Some_l _ _ _ _ Hv). eauto.
Qed.

(** C6. The split is a partition of the rows: the positions of the
    training rows and those of the test rows are disjoint and together are
    all positions, each once, and the features and the target of a row go
    to the same part.  A dataset of at least two rows is split.  Every
    cell calls the split at most once, and once when it completes. *)
Theorem split_is_partition g X y :
  library_ok L → nrows X = length y →
  (2 ≤ nrows X →
   ∃ parts,
     train_test_split L X y (33 # 100) (Some 1%Z) g = Ok parts) ∧
  (∀ X_train X_test y_train y_test,
     train_test_split L X y (33 # 100) (Some 1%Z) g
     = Ok (X_train, X_test, y_train, y_test) →
     ∃ ind_train ind_test,
       ind_train ++ ind_test ≡ₚ seq 0 (nrows X) ∧
       (∀ i, i ∈ ind_train → i ∉ ind_test) ∧
       (∀ i, i < nrows X → i ∈ ind_train ∨ i ∈ ind_test) ∧
       take_rows X ind_train = Ok X_train ∧
       take_at y ind_train = Ok y_train ∧
       take_rows X ind_test = Ok X_test ∧
       take_at y ind_test = Ok y_test ∧
       nrows X_train + nrows X_test = nrows X ∧
       zip (rows X_train) y_train ++ zip (rows X_test) y_test
       ≡ₚ zip (rows X) y) ∧
  (∀ c ns, c ∈ notebook_cells L g →
     split_count (calls (run_cell c ns).2) ≤ 1 ∧
     ((run_cell c ns).1 = Ok () →
      split_count (calls (run_cell c ns).2) = 1)).
Proof.
  intros HL Hlen. split_and!.
  - intros Hn. by apply train_test_split_total.
  - intros X_train X_test y_train y_test Hsplit.
    apply train_test_split_inv in Hsplit
      as (_ & HXtr & HXte & Hytr & Hyte).
    pose proof (shuffle_split_permutation L
      (check_random_state L (Some 1%Z) g) (nrows X)
      (n_test_of (33 # 100) (nrows X)) HL) as Hperm.
    destruct (shuffle_split _ _ _ _) as [ind_train ind_test].
    simpl in *. exists ind_train, ind_test.
    assert (NoDup (ind_train ++ ind_test)) as Hnodup
      by (rewrite Hperm; apply NoDup_seq).
    apply take_rows_inv in HXtr as Htr. destruct Htr as [Htr _].
    apply take_rows_inv in HXte as Hte. destruct Hte as [Hte _].
    split_and!; try done.
    + intros i Hi1 Hi2. apply NoDup_app in Hnodup as (_ & Hdisj & _).
      by apply (Hdisj i).
    + intros i Hi. apply elem_of_app. rewrite Hperm.
      apply elem_of_seq. lia.
    + unfold nrows. rewrite (take_at_length _ _ _ Htr).
      rewrite (take_at_length _ _ _ Hte), <-length_app.
      by rewrite Hperm, length_seq.
    + apply (take_at_permutation (zip (rows X) y) (ind_train ++ ind_test)).
      * apply take_at_app; by apply take_at_zip.
      * rewrite length_zip_with. unfold nrows in *.
        by rewrite <-Hlen, Nat.min_id.
  - intros c ns Hc. by apply (notebook_cells_split_once L g).
Qed.
End SplitClaims.

(** ** The filtering statements and the outlier fraction *)

Lemma filter_training_raises X_train y_train yhat e :
  filter_training X_train y_train yhat = Raise e → e = IndexError.
Proof.
  unfold filter_training, apply_mask, mask_rows, bool_index.
  repeat case_decide; simpl; congruence.
Qed.

(** C1, as the code has it. The filtering statements make no check of the
    expected fraction of outliers and never raise the configuration error:
    the detector is constructed with the value given and handed to the
    library; the statements raise what [fit_predict] raises, or
    [IndexError] when the labels do not match the training arrays, and
    complete otherwise, whatever the fraction.  The fractions written in the
    notebook lie in the interval (0, 0.5]. *)
Theorem no_configuration_check {G} (L : library G) (g : G) det d k
    X_train y_train :
  det ≠ "X_train" → det ≠ "y_train" →
  names k !! "X_train" = Some (VArr2 X_train) →
  names k !! "y_train" = Some (VArr1 y_train) →
  let r := (remove_outliers L g det d k).1 in
  r ≠ Raise ConfigError ∧
  (∀ what, fit_predict L d g X_train = inl what → r = Raise (Raised what)) ∧
  (∀ yhat, fit_predict L d g X_train = inr yhat →
     match filter_training X_train y_train yhat with
     | inl e => e = IndexError ∧ r = Raise IndexError
     | inr _ => r = Ok ()
     end) ∧
  (∀ yhat, fit_predict L d g X_train = inr yhat →
     nrows X_train = length y_train → length yhat = nrows X_train →
     r = Ok ()) ∧
  (∀ q, q ∈ omap outlier_fraction
              [ IsolationForest (1 # 10); EllipticEnvelope (1 # 100);
                LocalOutlierFactor; OneClassSVM (1 # 100) ] →
        (0 < q ∧ q <= 1 # 2)%Q).
Proof.
  intros Hdet1 Hdet2 HX Hy r. subst r.
  rewrite (remove_outliers_run L g k det d X_train y_train) by done.
  cbv zeta.
  split_and!.
  - destruct (fit_predict L d g X_train) as [what|yhat]; [done|].
    destruct (filter_training X_train y_train yhat) as [e|[X_kept y_kept]]
      eqn:Hf; [|done].
    apply filter_training_raises in Hf as ->. done.
  - by intros what ->.
  - intros yhat ->.
    destruct (filter_training X_train y_train yhat) as [e|[X_kept y_kept]]
      eqn:Hf; [|done].
    by apply filter_training_raises in Hf as ->.
  - intros yhat -> Hlen Hlabels.
    by rewrite filter_training_ok.
  - intros q. simpl. rewrite !elem_of_cons, elem_of_nil.
    intros [->|[->|[->|[]]]]; by compute.
Qed.

(** ** The small instance *)

Lemma small_library_ok : library_ok small_library.
Proof.
  split.
  - intros [] n; simpl; [|done]. symmetry. apply Permutation_rev.
  - apply left_to_right_ok.
Qed.

(** The isolation-forest cell on the small instance: the seeded shuffle
    puts rows 3 and 2 in the test part, the detector drops one of the two
    training rows, and the error is 25. *)
Example small_run :
  let run := run_cell (isolation_forest_cell small_library false) ∅ in
  run.1 = Ok () ∧
  stdout run.2 = [PShapes (2, 2) 2; PShapes (1, 2) 1; PMae (fl 25)] ∧
  names run.2 !! "y_test" = Some (VArr1 [fl 40; fl 30]).
Proof. vm_compute. done. Qed.

(** The first cell on the same instance: nothing is removed, the error
    is 15. *)
Example small_baseline_run :
  let run := run_cell (baseline_cell small_library false) ∅ in
  run.1 = Ok () ∧ stdout run.2 = [PMae (fl 15)] ∧ split_count (calls run.2) = 1.
Proof. vm_compute. done. Qed.

(** Labels [1, -1, 1, -1] keep rows 0 and 2, of the features and of the
    targets. *)
Example small_filter :
  filter_training small_X small_y [1; -1; 1; -1]%Z
  = Ok (Matrix 2 [[fl 1; fl 2]; [fl 5; fl 6]], [fl 10; fl 30]) ∧
  where_true 0 (ne_scalar [1; -1; 1; -1]%Z (-1)) = [0; 2].
Proof. by vm_compute. Qed.

(** Labels for two rows do not index four. *)
Example small_filter_mismatch :
  filter_training small_X small_y [1; -1]%Z = Raise IndexError.
Proof. by vm_compute. Qed.

Example small_columns :
  col_last small_table = Ok small_y ∧
  cols_init small_table
  = Matrix 2 [[fl 1; fl 2]; [fl 3; fl 4]; [fl 5; fl 6]; [fl 7; fl 8]].
Proof. by vm_compute. Qed.

(** The seeded split of the small table: rows 1 and 0 for training, rows 3
    and 2 for the test. *)
Example small_split :
  train_test_split small_library small_X small_y (33 # 100) (Some 1%Z) false
  = Ok (Matrix 2 [[fl 3; fl 4]; [fl 1; fl 2]],
        Matrix 2 [[fl 7; fl 8]; [fl 5; fl 6]],
        [fl 20; fl 10], [fl 40; fl 30]).
Proof. by vm_compute. Qed.

(** A NaN among the targets is rejected before any arithmetic. *)
Example mean_absolute_error_nan :
  mean_absolute_error left_to_right [S754_nan] [fl 1] = Raise ValueError.
Proof. by vm_compute. Qed.

(** The sizes the notebook prints for the housing table: 506 rows give 167
    test rows and 339 training rows. *)
Example housing_split_sizes :
  n_test_of (33 # 100) 506 = 167 ∧ 506 - n_test_of (33 # 100) 506 = 339.
Proof. by vm_compute. Qed.

(** Without a seed the split follows the ambient generator. *)
Example unseeded_split_varies :
  train_test_split small_library small_X small_y (33 # 100) None false
  ≠ train_test_split small_library small_X small_y (33 # 100) None true.
Proof. vm_compute. discriminate. Qed.

(** C1 as stated fails: a fraction of 0.7 is outside (0, 0.5], and the cell
    with such a detector completes instead of raising [ConfigError]. *)
Lemma out_of_range_fraction_accepted :
  outlier_fraction (OneClassSVM (7 # 10)) = Some (7 # 10) ∧
  ¬ (0 < 7 # 10 ∧ 7 # 10 <= 1 # 2)%Q ∧
  (remove_outliers small_library false "ee" (OneClassSVM (7 # 10))
     (Kernel small_names [] [])).1 = Ok () ∧
  (run_cell (outlier_cell small_library false "ee" (OneClassSVM (7 # 10)))
     ∅).1 = Ok ().
Proof.
  split; [done|]. split; [|split; by vm_compute].
  intros [_ Hle]. by compute in Hle.
Qed.

(** ** Instances of the theorems *)

Lemma no_configuration_check_witness :
  (remove_outliers small_library false "ee" (OneClassSVM (1 # 100))
     (Kernel small_names [] [])).1 ≠ Raise ConfigError.
Proof.
  apply (no_configuration_check small_library false "ee"
           (OneClassSVM (1 # 100)) (Kernel small_names [] [])
           small_X small_y); [done|done|reflexivity|reflexivity].
Defined.

Lemma filter_training_aligned_witness :
  ∃ X_kept y_kept,
    filter_training small_X small_y [1; -1; 1; -1]%Z = Ok (X_kept, y_kept) ∧
    nrows X_kept = length y_kept.
Proof.
  destruct (filter_training_aligned small_X small_y [1; -1; 1; -1]%Z)
    as (X_kept & y_kept & Hrun & _ & Hlen & _); [reflexivity|reflexivity|].
  by exists X_kept, y_kept.
Defined.

Lemma filter_training_count_witness :
  ∃ X_kept y_kept,
    filter_training small_X small_y [1; -1; 1; -1]%Z = Ok (X_kept, y_kept) ∧
    nrows X_kept = 4 - 2 ∧ length y_kept = 4 - 2.
Proof.
  apply (filter_training_count small_X small_y [1; -1; 1; -1]%Z);
    reflexivity.
Defined.

Lemma mean_absolute_error_nonneg_witness :
  mean_absolute_error left_to_right [fl 40; fl 30] [fl 10; fl 10]
  = Ok (fl 25) ∧
  f_leb f_zero (fl 25) = true.
Proof.
  assert (mean_absolute_error left_to_right [fl 40; fl 30] [fl 10; fl 10]
          = Ok (fl 25)) as Hmae by (by vm_compute).
  split; [exact Hmae|].
  apply (mean_absolute_error_nonneg left_to_right [fl 40; fl 30]
           [fl 10; fl 10]);
    [apply left_to_right_ok|by vm_compute|reflexivity|exact Hmae].
Defined.

Lemma split_is_partition_witness :
  ∃ parts,
    train_test_split small_library small_X small_y (33 # 100) (Some 1%Z) false
    = Ok parts.
Proof.
  apply (split_is_partition small_library false small_X small_y);
    [apply small_library_ok|reflexivity|vm_compute; lia].
Defined.

Lemma load_dataset_columns_witness :
  ∃ y k',
    load_dataset small_library fresh = (Ok (), k') ∧
    names k' !! "y" = Some (VArr1 y) ∧ length y = 4.
Proof.
  destruct (load_dataset_columns small_library fresh small_table)
    as (y & k' & Hrun & _ & _ & Hy & _ & Hlen & _).
  - reflexivity.
  - unfold wf_matrix. simpl. repeat constructor.
  - simpl. lia.
  - by exists y, k'.
Defined.


Lemma test_set_untouched_witness :
  names (remove_outliers small_library false "iso" (IsolationForest (1 # 10))
           (Kernel small_names [] [])).2 !! "X_test"
  = names (Kernel small_names [] []) !! "X_test".
Proof.
  destruct (test_set_untouched small_library false "iso"
              (IsolationForest (1 # 10)) ∅
              (run_cell (isolation_forest_cell small_library false) ∅).1
              (run_cell (isolation_forest_cell small_library false) ∅).2)
    as (Hframe & _); [done|done|done|done| |].
  - apply surjective_pairing.
  - apply Hframe.
Defined.

(** ** Every path through a cell *)

Section Closed.
Context {G : Type} (L : library G) (g : G).

Lemma outlier_cell_closed det d ns :
  det ≠ "X_train" → det ≠ "y_train" → det ≠ "X_test" → det ≠ "y_test" →
  run_cell (outlier_cell L g det d) ns = outlier_closed L g det d ns.
Proof.
  intros Hdet1 Hdet2 Hdet3 Hdet4.
  unfold outlier_closed, evaluate_closed, split_names, loaded_names.
  run_outlier_cell; reflexivity.
Qed.

Lemma baseline_cell_closed ns :
  run_cell (baseline_cell L g) ns = baseline_closed L g ns.
Proof.
  unfold baseline_closed, evaluate_closed, split_names, loaded_names.
  unfold run_cell, baseline_cell.
  rewrite run_seq, load_dataset_run. cbv beta iota zeta.
  destruct (read_csv _ _ _) as [what|data]; [reflexivity|].
  destruct (col_last data) as [e|y]; [reflexivity|].
  rewrite run_seq. erewrite split_dataset_run by find_name.
  cbv beta iota zeta.
  destruct (train_test_split _ _ _ _ _ _)
    as [e|[[[X_train X_test] y_train] y_test]]; [reflexivity|].
  erewrite fit_and_evaluate_run by find_name. cbv beta iota zeta.
  cbn [names stdout calls app]. reflexivity.
Qed.
End Closed.

(** * Further properties of the cells *)

(** ** The order of the library calls *)

Section Paths.
Context {G : Type} (L : library G) (g : G).

(** X1. The library is called in a fixed order: [read_csv],
    [train_test_split], [fit_predict] (outlier cells only), [fit],
    [predict], [mean_absolute_error].  A run that raises has made an
    initial part of these calls and none after it; a completed run has made
    each of them once. *)
Theorem calls_in_order det d ns :
  det ≠ "X_train" → det ≠ "y_train" → det ≠ "X_test" → det ≠ "y_test" →
  kind_of <$> calls (run_cell (baseline_cell L g) ns).2
    `prefix_of` baseline_order ∧
  ((run_cell (baseline_cell L g) ns).1 = Ok () →
   kind_of <$> calls (run_cell (baseline_cell L g) ns).2 = baseline_order) ∧
  kind_of <$> calls (run_cell (outlier_cell L g det d) ns).2
    `prefix_of` outlier_order ∧
  ((run_cell (outlier_cell L g det d) ns).1 = Ok () →
   kind_of <$> calls (run_cell (outlier_cell L g det d) ns).2 = outlier_order).
Proof.
  intros Hdet1 Hdet2 Hdet3 Hdet4.
  rewrite baseline_cell_closed, outlier_cell_closed by done.
  unfold baseline_closed, outlier_closed, evaluate_closed.
  repeat case_match; cbn; split_and!; try done;
    by (eexists; reflexivity).
Qed.

(** X2. The line [MAE: ...] is printed exactly when the cell completes, as
    its last line and only once: a run that raises prints no such line,
    and the lines before it are shape lines. *)
Theorem mae_printed_iff_completed c ns :
  c ∈ notebook_cells L g →
  ((run_cell c ns).1 = Ok () →
   ∃ shapes mae,
     stdout (run_cell c ns).2 = shapes ++ [PMae mae] ∧
     forallb is_shapes shapes = true) ∧
  ((run_cell c ns).1 ≠ Ok () →
   forallb is_shapes (stdout (run_cell c ns).2) = true).
Proof.
  unfold notebook_cells. rewrite !elem_of_cons, elem_of_nil.
  intros [->|[->|[->|[->|[->|[]]]]]].
  { rewrite baseline_cell_closed.
    unfold baseline_closed, evaluate_closed.
    repeat case_match; cbn; split; try done.
    intros _. by eexists [], _. }
  all: unfold isolation_forest_cell, elliptic_envelope_cell,
         local_outlier_factor_cell, one_class_svm_cell;
       rewrite outlier_cell_closed by done;
       unfold outlier_closed, evaluate_closed;
       repeat case_match; cbn; (split; try done);
       intros _; by eexists [_; _], _.
Qed.


(** X4. A table without columns has no last column: [data[:, -1]] raises
    [IndexError], after [url], [df] and [data] have been bound; [X] and [y]
    are not bound by the run, nothing is printed and the split is not
    called. *)
Theorem table_without_columns c ns data :
  c ∈ notebook_cells L g →
  read_csv L housing_url None = inr data →
  ncols data = 0 →
  (run_cell c ns).1 = Raise IndexError ∧
  stdout (run_cell c ns).2 = [] ∧
  calls (run_cell c ns).2 = [CReadCsv housing_url None] ∧
  names (run_cell c ns).2 !! "data" = Some (VArr2 data) ∧
  names (run_cell c ns).2 !! "X" = ns !! "X" ∧
  names (run_cell c ns).2 !! "y" = ns !! "y".
Proof.
  unfold notebook_cells. rewrite !elem_of_cons, elem_of_nil.
  intros Hc Hread Hcols.
  assert (col_last data = Raise IndexError) as Hlast
    by (unfold col_last; by rewrite Hcols).
  assert (run_cell c ns
          = (Raise IndexError,
             Kernel (loaded_names ns data) [] [CReadCsv housing_url None]))
    as ->.
  { destruct Hc as [->|[->|[->|[->|[->|[]]]]]].
    { rewrite baseline_cell_closed. unfold baseline_closed.
      by rewrite Hread, Hlast. }
    all: unfold isolation_forest_cell, elliptic_envelope_cell,
           local_outlier_factor_cell, one_class_svm_cell;
         rewrite outlier_cell_closed by done;
         unfold outlier_closed; by rewrite Hread, Hlast. }
  cbn [fst snd names stdout calls]. unfold loaded_names.
  split_and!; try done.
  - apply lookup_insert_eq.
  - by rewrite !lookup_insert_ne.
  - by rewrite !lookup_insert_ne.
Qed.
End Paths.

(** ** Edge cases of the array operations *)

Section CompressEdges.
Context {A : Type}.
Implicit Types (mask : list bool) (l : list A).

Lemma compress_all mask l :
  length mask = length l → Forall (λ b, b = true) mask → compress mask l = l.
Proof.
  revert l. induction mask as [|b mask IH]; intros [|x l] Hlen Hall;
    simplify_eq/=; [done|].
  apply Forall_cons in Hall as [-> Hall]. by rewrite IH.
Qed.

Lemma compress_none mask l :
  Forall (λ b, b = false) mask → compress mask l = [].
Proof.
  revert l. induction mask as [|b mask IH]; intros [|x l] Hall;
    simplify_eq/=; try done.
  apply Forall_cons in Hall as [-> Hall]. by apply IH.
Qed.

Lemma compress_Forall (P : A → Prop) mask l :
  Forall P l → Forall P (compress mask l).
Proof.
  revert l. induction mask as [|b mask IH]; intros [|x l] Hl; simpl;
    try constructor.
  apply Forall_cons in Hl as [Hx Hl].
  destruct b; [constructor; [done|]|]; by apply IH.
Qed.
End CompressEdges.

Lemma filter_training_inv X_train y_train yhat X_kept y_kept :
  filter_training X_train y_train yhat = Ok (X_kept, y_kept) →
  length yhat = nrows X_train ∧ length yhat = length y_train ∧
  X_kept = Matrix (ncols X_train)
             (compress (ne_scalar yhat (-1)) (rows X_train)) ∧
  y_kept = compress (ne_scalar yhat (-1)) y_train.
Proof.
  unfold filter_training, apply_mask, mask_rows, bool_index, nrows.
  assert (length (ne_scalar yhat (-1)) = length yhat) as ->
    by (unfold ne_scalar; apply length_map).
  repeat case_decide; simpl; try done. by intros [= <- <-].
Qed.

Lemma single_column_rows (rs : list (list float)) :
  Forall (λ r, length r = 1) rs →
  ∃ y,
    mapM (λ r : list float, last r) rs = Some y ∧
    rs = (λ t, [t]) <$> y ∧
    map (λ r : list float, removelast r) rs = replicate (length rs) [].
Proof.
  induction rs as [|r rs IH]; intros Hall; [by exists []|].
  apply Forall_cons in Hall as [Hr Hall].
  destruct (IH Hall) as (y & Hy & Hrows & Hinit).
  destruct r as [|t [|? ?]]; try done.
  exists (t :: y). simpl. rewrite Hy, Hinit. simpl.
  split_and!; [done|by f_equal|done].
Qed.

(** X5. A table with a single column has no features: [data[:, :-1]] is an
    array of shape [(n, 0)] and [data[:, -1]] is the whole table as a
    vector. *)
Theorem single_column_table data :
  wf_matrix data → ncols data = 1 →
  ∃ y,
    col_last data = Ok y ∧
    rows data = (λ t, [t]) <$> y ∧
    cols_init data = Matrix 0 (replicate (nrows data) []).
Proof.
  intros Hwf Hcols. unfold col_last, cols_init, wf_matrix, nrows in *.
  rewrite Hcols in *.
  destruct (single_column_rows (rows data) Hwf) as (y & Hy & Hrows & Hinit).
  exists y. by rewrite Hy, Hinit.
Qed.

Lemma filter_training_keeps_all X_train y_train yhat :
  nrows X_train = length y_train →
  length yhat = nrows X_train →
  Forall (λ v, v ≠ (-1)%Z) yhat →
  filter_training X_train y_train yhat = Ok (X_train, y_train).
Proof.
  intros Hy Hyhat Hall. rewrite filter_training_ok by done.
  assert (length (ne_scalar yhat (-1)) = length (rows X_train)) as Hm
    by (unfold ne_scalar; rewrite length_map; done).
  assert (Forall (λ b, b = true) (ne_scalar yhat (-1))) as Htrue.
  { unfold ne_scalar. apply Forall_fmap. eapply Forall_impl; [exact Hall|].
    intros v Hv. simpl. by destruct (Z.eqb_spec v (-1)). }
  rewrite !compress_all by (done || (unfold nrows in Hy; congruence)).
  by destruct X_train.
Qed.

Lemma filter_training_drops_all X_train y_train yhat :
  nrows X_train = length y_train →
  length yhat = nrows X_train →
  Forall (λ v, v = (-1)%Z) yhat →
  filter_training X_train y_train yhat = Ok (Matrix (ncols X_train) [], []).
Proof.
  intros Hy Hyhat Hall. rewrite filter_training_ok by done.
  assert (Forall (λ b, b = false) (ne_scalar yhat (-1))) as Hfalse.
  { unfold ne_scalar. apply Forall_fmap. eapply Forall_impl; [exact Hall|].
    by intros v ->. }
  by rewrite !compress_none.
Qed.

(** X6. Labels without [-1] leave the training set as it is, and labels
    that are all [-1] leave an empty training set with the same columns. *)
Theorem filter_training_extremes X_train y_train yhat :
  nrows X_train = length y_train →
  length yhat = nrows X_train →
  (Forall (λ v, v ≠ (-1)%Z) yhat →
   filter_training X_train y_train yhat = Ok (X_train, y_train)) ∧
  (Forall (λ v, v = (-1)%Z) yhat →
   filter_training X_train y_train yhat = Ok (Matrix (ncols X_train) [], [])).
Proof.
  intros Hy Hyhat. split; intros Hall.
  - by apply filter_training_keeps_all.
  - by apply filter_training_drops_all.
Qed.

Section Filtering.
Context {G : Type} (L : library G) (g : G).

(** X7. The filtering statements rebind [X_train] and [y_train] together or
    not at all: when they complete, both hold filtered arrays with equally
    many rows, no more than before and with the same columns; when they
    raise, both hold what they held before. *)
Theorem filtering_keeps_alignment det d k X_train y_train :
  det ≠ "X_train" → det ≠ "y_train" →
  names k !! "X_train" = Some (VArr2 X_train) →
  names k !! "y_train" = Some (VArr1 y_train) →
  ∃ X' y',
    names (remove_outliers L g det d k).2 !! "X_train" = Some (VArr2 X') ∧
    names (remove_outliers L g det d k).2 !! "y_train" = Some (VArr1 y') ∧
    ncols X' = ncols X_train ∧
    ((remove_outliers L g det d k).1 = Ok () →
     nrows X' = length y' ∧ nrows X' ≤ nrows X_train) ∧
    ((remove_outliers L g det d k).1 ≠ Ok () →
     X' = X_train ∧ y' = y_train).
Proof.
  intros Hdet1 Hdet2 HX Hy.
  rewrite (remove_outliers_run L g k det d X_train y_train) by done.
  cbv zeta.
  destruct (fit_predict L d g X_train) as [what|yhat].
  { exists X_train, y_train. cbn [fst snd names].
    rewrite !lookup_insert_ne by done. by split_and!. }
  destruct (filter_training X_train y_train yhat) as [e|[X_kept y_kept]]
    eqn:Hfilter.
  { exists X_train, y_train. cbn [fst snd names].
    rewrite !lookup_insert_ne by done. by split_and!. }
  apply filter_training_inv in Hfilter as (Hlen1 & Hlen2 & -> & ->).
  assert (length (ne_scalar yhat (-1)) = length yhat) as Hm
    by (unfold ne_scalar; apply length_map).
  eexists _, _. cbn [fst snd names].
  rewrite lookup_insert_ne, !lookup_insert_eq by done.
  split_and!; try done.
  intros _. unfold nrows in *. simpl.
  rewrite !length_compress by congruence. split; [done|].
  rewrite <-Hlen1, <-Hm. apply count_occ_bound.
Qed.

End Filtering.

(** ** The raised exceptions *)

Lemma col_last_raises data e : col_last data = Raise e → e = IndexError.
Proof. unfold col_last. repeat case_match; congruence. Qed.

Lemma take_at_raises {A} (l : list A) ind e :
  take_at l ind = Raise e → e = IndexError.
Proof. unfold take_at. case_match; congruence. Qed.

Lemma take_rows_raises X ind e : take_rows X ind = Raise e → e = IndexError.
Proof.
  unfold take_rows. destruct (take_at (rows X) ind) as [e'|rs] eqn:Hrs;
    simpl; [|done].
  intros [= <-]. by eapply take_at_raises.
Qed.

Lemma train_test_split_raises {G} (L : library G) X y test_size
    random_state g e :
  train_test_split L X y test_size random_state g = Raise e →
  e = ValueError ∨ e = IndexError.
Proof.
  unfold train_test_split. case_decide; [|intros [= <-]; by left].
  destruct (valid_test_size test_size); [|intros [= <-]; by left].
  case_decide; [intros [= <-]; by left|].
  destruct (shuffle_split _ _ _ _) as [ind_train ind_test].
  destruct (take_rows X ind_train) as [?|X1] eqn:H1; simpl.
  { intros [= <-]. right. by eapply take_rows_raises. }
  destruct (take_rows X ind_test) as [?|X2] eqn:H2; simpl.
  { intros [= <-]. right. by eapply take_rows_raises. }
  destruct (take_at y ind_train) as [?|y1] eqn:H3; simpl.
  { intros [= <-]. right. by eapply take_at_raises. }
  destruct (take_at y ind_test) as [?|y2] eqn:H4; simpl; [|done].
  intros [= <-]. right. by eapply take_at_raises.
Qed.

Lemma mean_absolute_error_raises order y_true y_pred e :
  mean_absolute_error order y_true y_pred = Raise e → e = ValueError.
Proof.
  unfold mean_absolute_error. repeat case_decide; try congruence.
  destruct (_ && _); congruence.
Qed.

Section Exceptions.
Context {G : Type} (L : library G) (g : G).

(** X9. A cell raises only what a library function raised, [IndexError] or
    [ValueError]: whatever the namespace holds when it starts, it never
    raises [NameError] or [TypeError], every name it reads having been
    bound by the cell itself to an object of the right kind. *)
Theorem exceptions_raised c ns e :
  c ∈ notebook_cells L g →
  (run_cell c ns).1 = Raise e →
  (e = IndexError ∨ e = ValueError ∨ ∃ what, e = Raised what) ∧
  (∀ x, e ≠ NameError x) ∧ e ≠ TypeError.
Proof.
  intros Hc Hrun.
  assert (e = IndexError ∨ e = ValueError ∨ ∃ what, e = Raised what)
    as Hkinds; [|split; [done|]; naive_solver].
  revert Hrun. unfold notebook_cells in Hc.
  rewrite !elem_of_cons, elem_of_nil in Hc.
  destruct Hc as [->|[->|[->|[->|[->|[]]]]]].
  { rewrite baseline_cell_closed.
    unfold baseline_closed, evaluate_closed.
    repeat case_match; cbn; intros [= <-]; eauto;
      repeat match goal with
      | H : col_last _ = Raise _ |- _ => apply col_last_raises in H as ->
      | H : train_test_split _ _ _ _ _ _ = Raise _ |- _ =>
          apply train_test_split_raises in H as [-> | ->]
      | H : mean_absolute_error _ _ _ = Raise _ |- _ =>
          apply mean_absolute_error_raises in H as ->
      end; eauto. }
  all: unfold isolation_forest_cell, elliptic_envelope_cell,
         local_outlier_factor_cell, one_class_svm_cell;
       rewrite outlier_cell_closed by done;
       unfold outlier_closed, evaluate_closed;
       repeat case_match; cbn; intros [= <-]; eauto;
       repeat match goal with
       | H : col_last _ = Raise _ |- _ => apply col_last_raises in H as ->
       | H : train_test_split _ _ _ _ _ _ = Raise _ |- _ =>
           apply train_test_split_raises in H as [-> | ->]
       | H : filter_training _ _ _ = Raise _ |- _ =>
           apply filter_training_raises in H as ->
       | H : mean_absolute_error _ _ _ = Raise _ |- _ =>
           apply mean_absolute_error_raises in H as ->
       end; eauto.
Qed.

(** ** Running a cell again *)

End Exceptions.

(** ** The names of a cell *)

Lemma binds_only_weaken {A} (S S' : gset string) (p : M A) :
  binds_only S p → S ⊆ S' → binds_only S' p.
Proof. intros Hp HS k x Hx. apply Hp. set_solver. Qed.



Section Names.
Context {G : Type} (L : library G) (g : G).

Lemma load_dataset_binds_only :
  binds_only {["url"; "df"; "data"; "X"; "y"]} (load_dataset L).
Proof. unfold load_dataset. binds_only_auto. Qed.

Lemma split_dataset_binds_only :
  binds_only {["X_train"; "X_test"; "y_train"; "y_test"]} (split_dataset L g).
Proof. unfold split_dataset. binds_only_auto. Qed.

Lemma print_shapes_binds_only : binds_only ∅ print_shapes.
Proof. unfold print_shapes. binds_only_auto. Qed.

Lemma fit_and_evaluate_binds_only :
  binds_only {["model"; "yhat"; "mae"]} (fit_and_evaluate L).
Proof. unfold fit_and_evaluate. binds_only_auto. Qed.

Lemma outlier_cell_binds_only det d :
  binds_only (cell_names det) (outlier_cell L g det d).
Proof.
  unfold outlier_cell, cell_names.
  apply binds_only_bind; [|intros _].
  { eapply binds_only_weaken; [apply load_dataset_binds_only|set_solver]. }
  apply binds_only_bind; [|intros _].
  { eapply binds_only_weaken; [apply split_dataset_binds_only|set_solver]. }
  apply binds_only_bind; [|intros _].
  { eapply binds_only_weaken; [apply print_shapes_binds_only|set_solver]. }
  apply binds_only_bind; [|intros _].
  { eapply binds_only_weaken; [apply remove_outliers_binds_only|set_solver]. }
  apply binds_only_bind; [|intros _].
  { eapply binds_only_weaken; [apply print_shapes_binds_only|set_solver]. }
  eapply binds_only_weaken; [apply fit_and_evaluate_binds_only|set_solver].
Qed.

End Names.

(** ** Shapes along the pipeline *)

Lemma cols_init_wf data : wf_matrix data → wf_matrix (cols_init data).
Proof.
  unfold wf_matrix, cols_init. simpl. intros Hwf.
  apply Forall_fmap. eapply Forall_impl; [exact Hwf|].
  intros r Hr. simpl. rewrite <-Hr.
  destruct r as [|a r] using rev_ind; [done|].
  rewrite removelast_last, length_app. simpl. lia.
Qed.

Lemma take_rows_wf X ind X' :
  wf_matrix X → take_rows X ind = Ok X' →
  wf_matrix X' ∧ ncols X' = ncols X ∧ nrows X' = length ind.
Proof.
  intros Hwf [Hrows Hcols]%take_rows_inv. unfold wf_matrix, nrows in *.
  rewrite Hcols. split_and!; [|done|by eapply take_at_length].
  apply take_at_Forall2 in Hrows. rewrite Forall_forall in Hwf.
  apply Forall_forall. intros r Hr.
  apply list_elem_of_lookup in Hr as [k Hk].
  destruct (Forall2_lookup_r _ _ _ _ _ Hrows Hk) as (i & _ & Hi).
  apply Hwf. by eapply list_elem_of_lookup_2.
Qed.

Lemma train_test_split_shapes {G} (L : library G) X y test_size random_state g
    X_train X_test y_train y_test :
  wf_matrix X →
  train_test_split L X y test_size random_state g
  = Ok (X_train, X_test, y_train, y_test) →
  wf_matrix X_train ∧ wf_matrix X_test ∧
  ncols X_train = ncols X ∧ ncols X_test = ncols X ∧
  nrows X_train = length y_train ∧ nrows X_test = length y_test.
Proof.
  intros Hwf (_ & H1 & H2 & H3 & H4)%train_test_split_inv.
  destruct (take_rows_wf _ _ _ Hwf H1) as (? & ? & Hn1).
  destruct (take_rows_wf _ _ _ Hwf H2) as (? & ? & Hn2).
  apply take_at_length in H3, H4. split_and!; try done; congruence.
Qed.

Ltac in_list :=
  repeat first [apply list_elem_of_here | apply list_elem_of_further].

Section Shapes.
Context {G : Type} (L : library G) (g : G).

(** X12. The two shape lines of a completed outlier cell: the training
    part has as many targets as rows; after the filtering the number of
    rows and of targets is smaller by the number of labels [-1], and the
    number of columns is the same. *)
Theorem printed_shapes det d ns k' :
  det ≠ "X_train" → det ≠ "y_train" → det ≠ "X_test" → det ≠ "y_test" →
  run_cell (outlier_cell L g det d) ns = (Ok (), k') →
  ∃ X_train yhat mae,
    CFitPredict d X_train ∈ calls k' ∧
    fit_predict L d g X_train = inr yhat ∧
    length yhat = nrows X_train ∧
    stdout k' =
      [ PShapes (nrows X_train, ncols X_train) (nrows X_train);
        PShapes (nrows X_train - flagged yhat, ncols X_train)
                (nrows X_train - flagged yhat);
        PMae mae ].
Proof.
  intros Hdet1 Hdet2 Hdet3 Hdet4. rewrite outlier_cell_closed by done.
  unfold outlier_closed, evaluate_closed.
  repeat case_match; intros [= <-]; cbn [calls stdout app].
  match goal with
  | H : filter_training _ _ _ = Ok _ |- _ =>
      apply filter_training_inv in H as (Hlen1 & Hlen2 & -> & ->)
  end.
  eexists _, _, _. split_and!; [in_list|done|done|].
  pose proof (count_true_ne_scalar l2) as Hcount.
  assert (length (ne_scalar l2 (-1)) = length l2) as Hm
    by (unfold ne_scalar; apply length_map).
  unfold shape, nrows in *. simpl.
  rewrite !length_compress by congruence.
  repeat f_equal; lia.
Qed.

(** X13. Columns are kept along the pipeline: when the table is
    rectangular, the regression of a completed outlier cell is fit on a
    rectangular array with one column less than the table and as many
    targets as rows, and predicts for a rectangular array with the same
    number of columns. *)
Theorem pipeline_columns det d ns k' data :
  det ≠ "X_train" → det ≠ "y_train" → det ≠ "X_test" → det ≠ "y_test" →
  read_csv L housing_url None = inr data → wf_matrix data →
  run_cell (outlier_cell L g det d) ns = (Ok (), k') →
  ∃ X_kept y_kept m X_test,
    CFit X_kept y_kept ∈ calls k' ∧ CPredict m X_test ∈ calls k' ∧
    wf_matrix X_kept ∧ wf_matrix X_test ∧
    ncols X_kept = ncols data - 1 ∧ ncols X_test = ncols data - 1 ∧
    nrows X_kept = length y_kept.
Proof.
  intros Hdet1 Hdet2 Hdet3 Hdet4 Hread Hwf.
  rewrite outlier_cell_closed by done.
  unfold outlier_closed, evaluate_closed. rewrite Hread.
  repeat case_match; intros [= <-]; cbn [calls stdout app].
  match goal with
  | H : train_test_split _ _ _ _ _ _ = Ok _ |- _ =>
      apply train_test_split_shapes in H
        as (Hwf1 & Hwf2 & Hc1 & Hc2 & Hn1 & Hn2); [|by apply cols_init_wf]
  end.
  match goal with
  | H : filter_training _ _ _ = Ok _ |- _ =>
      apply filter_training_inv in H as (Hlen1 & Hlen2 & -> & ->)
  end.
  eexists _, _, _, _. split_and!; [in_list|in_list|..]; try done.
  - unfold wf_matrix in *. simpl. by apply compress_Forall.
  - assert (length (ne_scalar l2 (-1)) = length l2) as Hm
      by (unfold ne_scalar; apply length_map).
    unfold nrows in *. simpl. rewrite !length_compress by congruence. done.
Qed.

(** X14. The first cell never calls a detector and prints no shape line;
    when it completes, the regression has been fit on the whole training
    part of the split, and [yhat], [model] and [mae] hold the predictions
    for the test part, the fitted regression and the printed error. *)
Theorem baseline_completed ns r k' :
  run_cell (baseline_cell L g) ns = (r, k') →
  (∀ d X, CFitPredict d X ∉ calls k') ∧
  (∀ X_shape y_shape, PShapes X_shape y_shape ∉ stdout k') ∧
  (r = Ok () →
   ∃ data y X_train X_test y_train y_test m pred mae,
     read_csv L housing_url None = inr data ∧ col_last data = Ok y ∧
     train_test_split L (cols_init data) y (33 # 100) (Some 1%Z) g
     = Ok (X_train, X_test, y_train, y_test) ∧
     lr_fit L X_train y_train = inr m ∧
     lr_predict L m X_test = inr pred ∧
     mean_absolute_error (sum_order L) y_test pred = Ok mae ∧
     stdout k' = [PMae mae] ∧
     names k' !! "X_train" = Some (VArr2 X_train) ∧
     names k' !! "y_train" = Some (VArr1 y_train) ∧
     names k' !! "model" = Some (VModel (Some m)) ∧
     names k' !! "yhat" = Some (VArr1 pred) ∧
     names k' !! "mae" = Some (VFloat mae)).
Proof.
  rewrite baseline_cell_closed.
  unfold baseline_closed, evaluate_closed, split_names.
  repeat case_match; intros [= <- <-]; cbn [calls stdout names app];
    (split_and!;
     [intros d' X' Hin; by no_such_call Hin
     |intros s1 s2 Hin; by no_such_call Hin
     |intros Hok; try done]).
  do 9 eexists.
  repeat (split; [first [eassumption | reflexivity | by find_name]|]).
  by find_name.
Qed.
End Shapes.

(** ** A detector that flags nothing *)

Section Quiet.
Context {G : Type} (L : library G) (g : G).

End Quiet.

(** ** The notebook run from top to bottom *)

Section Notebook.
Context {G : Type} (L : library G) (g : G).

Lemma run_result_independent c ns :
  c ∈ notebook_cells L g → (run_cell c ns).1 = (run_cell c ∅).1.
Proof.
  intros Hc. by rewrite (self_contained_run c ns)
    by (by eapply notebook_cells_self_contained).
Qed.

Lemma outlier_cell_binds_detector det d ns :
  det ≠ "X_train" → det ≠ "y_train" → det ≠ "X_test" → det ≠ "y_test" →
  det ≠ "yhat" → det ≠ "mask" → det ≠ "model" → det ≠ "mae" →
  (run_cell (outlier_cell L g det d) ns).1 = Ok () →
  names (run_cell (outlier_cell L g det d) ns).2 !! det = Some (VDetector d).
Proof.
  intros Hdet1 Hdet2 Hdet3 Hdet4 Hdet5 Hdet6 Hdet7 Hdet8.
  rewrite outlier_cell_closed by done.
  unfold outlier_closed, evaluate_closed.
  repeat case_match; simpl; try done. intros _.
  rewrite !lookup_insert_ne by done. by rewrite lookup_insert_eq.
Qed.

(** X16. After the notebook has been run from top to bottom, every cell
    completing, [iso] and [lof] still hold the detectors of their cells,
    and [ee] holds the One-Class SVM: the last cell binds its detector to
    the name of the elliptic envelope, which is no longer bound. *)
Theorem notebook_detectors ns :
  (∀ c, c ∈ notebook_cells L g → (run_cell c ∅).1 = Ok ()) →
  run_cells (notebook_cells L g) ns !! "iso"
  = Some (VDetector (IsolationForest (1 # 10))) ∧
  run_cells (notebook_cells L g) ns !! "lof"
  = Some (VDetector LocalOutlierFactor) ∧
  run_cells (notebook_cells L g) ns !! "ee"
  = Some (VDetector (OneClassSVM (1 # 100))).
Proof.
  intros Hcompleted.
  assert (∀ c ns', c ∈ notebook_cells L g → (run_cell c ns').1 = Ok ())
    as Hany by (intros c ns' Hc; rewrite run_result_independent; auto).
  unfold run_cells, notebook_cells in *. cbn [foldl].
  unfold isolation_forest_cell, elliptic_envelope_cell,
    local_outlier_factor_cell, one_class_svm_cell in *.
  split_and!.
  - unfold run_cell at 1. rewrite outlier_cell_binds_only
      by (unfold cell_names; set_solver). cbn [names].
    unfold run_cell at 1. rewrite outlier_cell_binds_only
      by (unfold cell_names; set_solver). cbn [names].
    unfold run_cell at 1. rewrite outlier_cell_binds_only
      by (unfold cell_names; set_solver). cbn [names].
    apply outlier_cell_binds_detector; try done.
    apply Hany. apply list_elem_of_further, list_elem_of_here.
  - unfold run_cell at 1. rewrite outlier_cell_binds_only
      by (unfold cell_names; set_solver). cbn [names].
    apply outlier_cell_binds_detector; try done.
    apply Hany. do 3 apply list_elem_of_further. apply list_elem_of_here.
  - apply outlier_cell_binds_detector; try done.
    apply Hany. do 4 apply list_elem_of_further. apply list_elem_of_here.
Qed.
End Notebook.

(** ** Instances of the further properties *)

Lemma run_completed {A B} (run : A * B) (r : A) :
  run.1 = r → run = (r, run.2).
Proof. intros <-. apply surjective_pairing. Qed.

Lemma calls_in_order_witness :
  kind_of <$> calls (run_cell (outlier_cell small_library false "iso"
                                 (IsolationForest (1 # 10))) ∅).2
  = outlier_order.
Proof.
  destruct (calls_in_order small_library false "iso"
              (IsolationForest (1 # 10)) ∅) as (_ & _ & _ & Hcompleted);
    [done|done|done|done|].
  apply Hcompleted. vm_compute. reflexivity.
Defined.

Lemma mae_printed_iff_completed_witness :
  ∃ shapes mae,
    stdout (run_cell (baseline_cell small_library false) ∅).2
    = shapes ++ [PMae mae] ∧
    forallb is_shapes shapes = true.
Proof.
  destruct (mae_printed_iff_completed small_library false
              (baseline_cell small_library false) ∅) as [Hcompleted _].
  - apply list_elem_of_here.
  - apply Hcompleted. vm_compute. reflexivity.
Defined.


Lemma table_without_columns_witness :
  (run_cell (baseline_cell no_columns_library false) ∅).1 = Raise IndexError.
Proof.
  destruct (table_without_columns no_columns_library false
              (baseline_cell no_columns_library false) ∅ (Matrix 0 [[]; []]))
    as (Hraise & _).
  - apply list_elem_of_here.
  - reflexivity.
  - reflexivity.
  - exact Hraise.
Defined.

Lemma single_column_table_witness :
  ∃ y,
    col_last (Matrix 1 [[fl 10]; [fl 20]]) = Ok y ∧
    rows (Matrix 1 [[fl 10]; [fl 20]]) = (λ t, [t]) <$> y ∧
    cols_init (Matrix 1 [[fl 10]; [fl 20]])
    = Matrix 0 (replicate (nrows (Matrix 1 [[fl 10]; [fl 20]])) []).
Proof.
  apply (single_column_table (Matrix 1 [[fl 10]; [fl 20]])).
  - unfold wf_matrix. simpl. repeat constructor.
  - reflexivity.
Defined.

Lemma filter_training_extremes_witness :
  filter_training small_X small_y [1; 1; 1; 1]%Z = Ok (small_X, small_y).
Proof.
  destruct (filter_training_extremes small_X small_y [1; 1; 1; 1]%Z)
    as [Hkept _]; [reflexivity|reflexivity|].
  apply Hkept. repeat constructor; discriminate.
Defined.

Lemma filtering_keeps_alignment_witness :
  ∃ X' y',
    names (remove_outliers small_library false "iso"
             (IsolationForest (1 # 10)) (Kernel small_names [] [])).2
      !! "X_train" = Some (VArr2 X') ∧
    names (remove_outliers small_library false "iso"
             (IsolationForest (1 # 10)) (Kernel small_names [] [])).2
      !! "y_train" = Some (VArr1 y') ∧
    ncols X' = ncols small_X.
Proof.
  destruct (filtering_keeps_alignment small_library false "iso"
              (IsolationForest (1 # 10)) (Kernel small_names [] [])
              small_X small_y) as (X' & y' & HX & Hy & Hcols & _);
    [done|done|reflexivity|reflexivity|].
  by exists X', y'.
Defined.


Lemma exceptions_raised_witness :
  (Raised "HTTPError" = IndexError ∨ Raised "HTTPError" = ValueError ∨
   ∃ what, Raised "HTTPError" = Raised what) ∧
  (∀ x, Raised "HTTPError" ≠ NameError x) ∧ Raised "HTTPError" ≠ TypeError.
Proof.
  apply (exceptions_raised offline_library false
           (baseline_cell offline_library false) ∅ (Raised "HTTPError")).
  - apply list_elem_of_here.
  - vm_compute. reflexivity.
Defined.



Lemma printed_shapes_witness :
  ∃ X_train yhat mae,
    CFitPredict (IsolationForest (1 # 10)) X_train
      ∈ calls (run_cell (outlier_cell small_library false "iso"
                           (IsolationForest (1 # 10))) ∅).2 ∧
    fit_predict small_library (IsolationForest (1 # 10)) false X_train
    = inr yhat ∧
    length yhat = nrows X_train ∧
    stdout (run_cell (outlier_cell small_library false "iso"
                        (IsolationForest (1 # 10))) ∅).2 =
      [ PShapes (nrows X_train, ncols X_train) (nrows X_train);
        PShapes (nrows X_train - flagged yhat, ncols X_train)
                (nrows X_train - flagged yhat);
        PMae mae ].
Proof.
  apply (printed_shapes small_library false "iso" (IsolationForest (1 # 10))
           ∅); [done|done|done|done|].
  apply run_completed. vm_compute. reflexivity.
Defined.

Lemma pipeline_columns_witness :
  ∃ X_kept y_kept m X_test,
    CFit X_kept y_kept
      ∈ calls (run_cell (outlier_cell small_library false "iso"
                           (IsolationForest (1 # 10))) ∅).2 ∧
    CPredict m X_test
      ∈ calls (run_cell (outlier_cell small_library false "iso"
                           (IsolationForest (1 # 10))) ∅).2 ∧
    wf_matrix X_kept ∧ wf_matrix X_test ∧
    ncols X_kept = ncols small_table - 1 ∧
    ncols X_test = ncols small_table - 1 ∧
    nrows X_kept = length y_kept.
Proof.
  apply (pipeline_columns small_library false "iso"
           (IsolationForest (1 # 10)) ∅); [done|done|done|done| | |].
  - reflexivity.
  - unfold wf_matrix. simpl. repeat constructor.
  - apply run_completed. vm_compute. reflexivity.
Defined.

Lemma baseline_completed_witness :
  ¬ CFitPredict LocalOutlierFactor small_X
      ∈ calls (run_cell (baseline_cell small_library false) small_names).2.
Proof.
  destruct (baseline_completed small_library false small_names
              (run_cell (baseline_cell small_library false) small_names).1
              (run_cell (baseline_cell small_library false) small_names).2)
    as (Hdetector & _).
  - apply surjective_pairing.
  - apply Hdetector.
Defined.


Lemma notebook_detectors_witness :
  run_cells (notebook_cells small_library false) ∅ !! "ee"
  = Some (VDetector (OneClassSVM (1 # 100))).
Proof.
  destruct (notebook_detectors small_library false ∅) as (_ & _ & Hee).
  - unfold notebook_cells. intros c.
    rewrite !elem_of_cons, elem_of_nil.
    intros [->|[->|[->|[->|[->|[]]]]]]; vm_compute; reflexivity.
  - exact Hee.
Defined.
